(** * Rock-paper-scissors match bot: the match/session state machine

    A shallow embedding of the command handlers of [telegram-bot.py]
    ([play], [join], [rock]/[paper]/[scissors] through [make_move]) over the
    two module-level dictionaries [active_games] and [user_games], followed
    by the properties of the outcome table and of the match lifecycle. *)

From Stdlib Require Import ZArith String.
From stdpp Require Import gmap strings list fin_maps.

Local Open Scope Z_scope.
Local Open Scope string_scope.

(** ** Python dictionaries with string keys

    [active_games] is iterated by [join], so its insertion order is
    observable: it is kept as an association list in insertion order.
    Assigning to a key that is present replaces the value in place,
    assigning to a new key appends, [del] of an absent key raises
    [KeyError] (here: [None]). *)

Section py_dict.
Context {V : Type}.

Fixpoint dict_get (k : string) (d : list (string * V)) : option V :=
  match d with
  | [] => None
  | (k', v) :: rest => if decide (k' = k) then Some v else dict_get k rest
  end.

Fixpoint dict_set (k : string) (v : V) (d : list (string * V))
  : list (string * V) :=
  match d with
  | [] => [(k, v)]
  | (k', v') :: rest =>
      if decide (k' = k) then (k, v) :: rest else (k', v') :: dict_set k v rest
  end.

Fixpoint dict_del (k : string) (d : list (string * V))
  : option (list (string * V)) :=
  match d with
  | [] => None
  | (k', v') :: rest =>
      if decide (k' = k) then Some rest
      else match dict_del k rest with
           | Some rest' => Some ((k', v') :: rest')
           | None => None
           end
  end.

Definition dict_keys (d : list (string * V)) : list string := d.*1.

(** A Python dictionary holds each key once. *)
Definition dict_wf (d : list (string * V)) : Prop := NoDup (dict_keys d).
End py_dict.

(** ** Data model *)

(** The three strings [make_move] is called with. *)
Inductive Move := Rock | Paper | Scissors.

(** The values of [game['status']]. *)
Inductive Status := waiting | active.

(** The value of one [active_games] entry; [None] slots are [None]. *)
Record Game := mkGame {
  player1 : Z;
  player2 : option Z;
  player1_move : option Move;
  player2_move : option Move;
  status : Status
}.

Record State := mkState {
  active_games : list (string * Game);
  user_games : gmap Z string
}.

Definition initial_state : State :=
  {| active_games := []; user_games := ∅ |}.

Inductive Outcome := Draw | Player1Wins | Player2Wins.

(** One constructor per [reply_text] call of the three handlers. *)
Inductive Reply :=
| ReplyCreated (game_id : string)
| ReplyNoGames
| ReplyJoined
| ReplyNotInGame
| ReplyGameNotFound
| ReplyChose (move : Move)
| ReplyResult (p1_move p2_move : Move) (result : Outcome)
| ReplyWaiting.

Inductive PyExn := KeyError.

(** What a handler leaves behind: the dictionaries as mutated so far, the
    messages sent so far, and the exception it stopped on, if any. *)
Record Out := mkOut {
  state : State;
  replies : list Reply;
  raised : option PyExn
}.

#[global] Instance Move_eq_dec : EqDecision Move.
Proof. solve_decision. Defined.
#[global] Instance Status_eq_dec : EqDecision Status.
Proof. solve_decision. Defined.

(** ** The handlers *)

(** Lines 148-157 of [make_move]: the outcome of the two recorded moves. *)
Definition resolve (p1_move p2_move : Move) : Outcome :=
  if decide (p1_move = p2_move) then Draw
  else if (bool_decide (p1_move = Rock) && bool_decide (p2_move = Scissors))
          || (bool_decide (p1_move = Paper) && bool_decide (p2_move = Rock))
          || (bool_decide (p1_move = Scissors) && bool_decide (p2_move = Paper))
  then Player1Wins
  else Player2Wins.

(** [play]: [uuid4] is the text of the generated UUID. *)
Definition play (uuid4 : string) (user_id : Z) (st : State) : Out :=
  let game_id := substring 0 8 uuid4 in
  let games :=
    dict_set game_id
      {| player1 := user_id; player2 := None;
         player1_move := None; player2_move := None;
         status := waiting |}
      (active_games st) in
  {| state := {| active_games := games;
                 user_games := <[user_id := game_id]> (user_games st) |};
     replies := [ReplyCreated game_id];
     raised := None |}.

(** The loop of [join]: the first entry, in dictionary order, that is
    waiting and was created by somebody else. *)
Fixpoint find_available (user_id : Z) (items : list (string * Game))
  : option string :=
  match items with
  | [] => None
  | (game_id, game) :: rest =>
      if bool_decide (status game = waiting)
         && bool_decide (player1 game ≠ user_id)
      then Some game_id
      else find_available user_id rest
  end.

(** Python truth value of [available_game]: [None] and the empty string
    are false. *)
Definition truthy (s : option string) : bool :=
  match s with
  | None => false
  | Some s => negb (bool_decide (s = ""))
  end.

Definition join (user_id : Z) (st : State) : Out :=
  let available_game := find_available user_id (active_games st) in
  if negb (truthy available_game) then
    {| state := st; replies := [ReplyNoGames]; raised := None |}
  else
    match available_game with
    | None => {| state := st; replies := [ReplyNoGames]; raised := None |}
    | Some game_id =>
        match dict_get game_id (active_games st) with
        | None => {| state := st; replies := []; raised := Some KeyError |}
        | Some game =>
            let game' :=
              {| player1 := player1 game; player2 := Some user_id;
                 player1_move := player1_move game;
                 player2_move := player2_move game;
                 status := active |} in
            {| state :=
                 {| active_games := dict_set game_id game' (active_games st);
                    user_games := <[user_id := game_id]> (user_games st) |};
               replies := [ReplyJoined];
               raised := None |}
        end
    end.

(** Lines 134-137: the move goes to the first slot when the sender is
    [player1], to the second slot otherwise. *)
Definition set_move (user_id : Z) (move : Move) (game : Game) : Game :=
  if decide (player1 game = user_id) then
    {| player1 := player1 game; player2 := player2 game;
       player1_move := Some move; player2_move := player2_move game;
       status := status game |}
  else
    {| player1 := player1 game; player2 := player2 game;
       player1_move := player1_move game; player2_move := Some move;
       status := status game |}.

(** Lines 167-171: the three deletions that end a game, in order; the
    first one that fails stops the handler with what was deleted so far. *)
Definition clean_up (game_id : string) (game : Game) (st : State)
  : State * option PyExn :=
  match dict_del game_id (active_games st) with
  | None => (st, Some KeyError)
  | Some games =>
      let st1 := {| active_games := games; user_games := user_games st |} in
      match user_games st1 !! player1 game with
      | None => (st1, Some KeyError)
      | Some _ =>
          let users := delete (player1 game) (user_games st1) in
          let users' :=
            match player2 game with
            | Some p2 =>
                if decide (is_Some (users !! p2)) then delete p2 users
                else users
            | None => users
            end in
          ({| active_games := games; user_games := users' |}, None)
      end
  end.

Definition make_move (user_id : Z) (move : Move) (st : State) : Out :=
  match user_games st !! user_id with
  | None => {| state := st; replies := [ReplyNotInGame]; raised := None |}
  | Some game_id =>
      match dict_get game_id (active_games st) with
      | None =>
          {| state := st; replies := [ReplyGameNotFound]; raised := None |}
      | Some game0 =>
          let game := set_move user_id move game0 in
          let st1 :=
            {| active_games := dict_set game_id game (active_games st);
               user_games := user_games st |} in
          match player1_move game, player2_move game with
          | Some p1_move, Some p2_move =>
              let result := resolve p1_move p2_move in
              let '(st2, exn) := clean_up game_id game st1 in
              {| state := st2;
                 replies := [ReplyChose move;
                             ReplyResult p1_move p2_move result];
                 raised := exn |}
          | _, _ =>
              {| state := st1;
                 replies := [ReplyChose move; ReplyWaiting];
                 raised := None |}
          end
      end
  end.

Definition rock (user_id : Z) (st : State) : Out := make_move user_id Rock st.
Definition paper (user_id : Z) (st : State) : Out := make_move user_id Paper st.
Definition scissors (user_id : Z) (st : State) : Out :=
  make_move user_id Scissors st.

(** ** Runs of the bot *)

(** The state-changing commands a user can send. *)
Inductive Command :=
| CmdPlay (uuid4 : string)
| CmdJoin
| CmdMove (move : Move).

Definition handle (user_id : Z) (c : Command) (st : State) : Out :=
  match c with
  | CmdPlay uuid4 => play uuid4 user_id st
  | CmdJoin => join user_id st
  | CmdMove Rock => rock user_id st
  | CmdMove Paper => paper user_id st
  | CmdMove Scissors => scissors user_id st
  end.

(** The dictionaries after a list of commands, oldest first.  A handler
    that raised leaves its partial mutations in place and the bot goes on
    with the next command. *)
Fixpoint run (cmds : list (Z * Command)) (st : State) : State :=
  match cmds with
  | [] => st
  | (user_id, c) :: rest => run rest (state (handle user_id c st))
  end.

Inductive reachable : State → Prop :=
| reachable_init : reachable initial_state
| reachable_step st user_id c :
    reachable st → reachable (state (handle user_id c st)).

(** An identifier is fresh when no game is stored under it and no session
    entry refers to it. *)
Definition fresh_id (game_id : string) (st : State) : Prop :=
  dict_get game_id (active_games st) = None
  ∧ map_Forall (λ _ session, session ≠ game_id) (user_games st).

Definition fresh_command (c : Command) (st : State) : Prop :=
  match c with
  | CmdPlay uuid4 => fresh_id (substring 0 8 uuid4) st
  | _ => True
  end.

(** States reached when every [play] draws a fresh identifier. *)
Inductive reachable_fresh : State → Prop :=
| reachable_fresh_init : reachable_fresh initial_state
| reachable_fresh_step st user_id c :
    reachable_fresh st → fresh_command c st →
    reachable_fresh (state (handle user_id c st)).

(** ** Dictionary lemmas *)

Section py_dict_facts.
Context {V : Type}.
Implicit Types (k : string) (v : V) (d : list (string * V)).

Lemma dict_get_set_eq k v d : dict_get k (dict_set k v d) = Some v.
Proof.
  induction d as [|[k' v'] d IH]; simpl.
  - by rewrite decide_True.
  - destruct (decide (k' = k)) as [->|Hne]; simpl.
    + by rewrite decide_True.
    + by rewrite decide_False.
Qed.

Lemma dict_get_set_ne k k' v d :
  k ≠ k' → dict_get k' (dict_set k v d) = dict_get k' d.
Proof.
  intros Hne. induction d as [|[k0 v0] d IH]; simpl.
  - by rewrite decide_False.
  - destruct (decide (k0 = k)) as [->|Hk]; simpl.
    + by rewrite !decide_False.
    + destruct (decide (k0 = k')); [done | apply IH].
Qed.

Lemma dict_get_elem_of k v d : dict_get k d = Some v → (k, v) ∈ d.
Proof.
  induction d as [|[k' v'] d IH]; simpl; [done|].
  destruct (decide (k' = k)) as [->|Hne].
  - intros [= ->]. left.
  - intros H. right. by apply IH.
Qed.

Lemma dict_get_None_keys k d : dict_get k d = None ↔ k ∉ dict_keys d.
Proof.
  unfold dict_keys. induction d as [|[k' v'] d IH]; simpl.
  - split; [intros _; apply not_elem_of_nil | done].
  - rewrite not_elem_of_cons. destruct (decide (k' = k)) as [->|Hne].
    + split; [done | intros [? _]; done].
    + rewrite IH. split; [intros ?; split; [congruence | done] | by intros [_ ?]].
Qed.

Lemma dict_wf_elem_of_get k v d : dict_wf d → (k, v) ∈ d → dict_get k d = Some v.
Proof.
  unfold dict_wf, dict_keys. induction d as [|[k' v'] d IH]; simpl.
  - intros _ H. by apply elem_of_nil in H.
  - intros Hnd Hin. apply NoDup_cons in Hnd as [Hk' Hnd].
    apply elem_of_cons in Hin as [[= -> ->]|Hin].
    + by rewrite decide_True.
    + rewrite decide_False; [by apply IH|].
      intros ->. apply Hk'. apply list_elem_of_fmap. by exists (k, v).
Qed.

Lemma dict_keys_set k v d :
  dict_keys (dict_set k v d)
  = if decide (k ∈ dict_keys d) then dict_keys d else (dict_keys d ++ [k])%list.
Proof.
  unfold dict_keys. induction d as [|[k' v'] d IH].
  - rewrite decide_False; [done | apply not_elem_of_nil].
  - cbn [dict_set]. destruct (decide (k' = k)) as [->|Hne].
    + rewrite !fmap_cons. cbn [fst]. rewrite decide_True; [done | left].
    + rewrite !fmap_cons, IH. cbn [fst].
      destruct (decide (k ∈ d.*1)) as [Hin|Hin].
      * rewrite decide_True; [done | by right].
      * rewrite decide_False; [done|].
        rewrite not_elem_of_cons. split; [congruence | done].
Qed.

Lemma dict_wf_set k v d : dict_wf d → dict_wf (dict_set k v d).
Proof.
  unfold dict_wf. rewrite dict_keys_set. intros Hnd.
  destruct (decide (k ∈ dict_keys d)) as [|Hin]; [done|].
  apply NoDup_app. split_and!; [done | | apply NoDup_singleton].
  intros x Hx Hx'. apply list_elem_of_singleton in Hx' as ->. done.
Qed.

Lemma dict_del_sublist k d d' : dict_del k d = Some d' → sublist d' d.
Proof.
  revert d'. induction d as [|[k' v'] d IH]; simpl; intros d'; [done|].
  destruct (decide (k' = k)) as [->|Hne].
  - intros [= <-]. by apply sublist_cons.
  - destruct (dict_del k d) as [r|]; [|done].
    intros [= <-]. apply sublist_skip. by apply IH.
Qed.

Lemma dict_wf_del k d d' : dict_wf d → dict_del k d = Some d' → dict_wf d'.
Proof.
  unfold dict_wf, dict_keys. intros Hnd Hdel.
  eapply sublist_NoDup; [exact Hnd|].
  apply fmap_sublist. by eapply dict_del_sublist.
Qed.

Lemma dict_del_is_Some k d : is_Some (dict_get k d) → is_Some (dict_del k d).
Proof.
  induction d as [|[k' v'] d IH]; simpl.
  - by intros [? ?].
  - destruct (decide (k' = k)); [by eexists|].
    intros H. destruct (IH H) as [r ->]. by eexists.
Qed.

Lemma dict_get_del_ne k k' d d' :
  dict_del k d = Some d' → k ≠ k' → dict_get k' d' = dict_get k' d.
Proof.
  revert d'. induction d as [|[k0 v0] d IH]; simpl; intros d'; [done|].
  destruct (decide (k0 = k)) as [->|Hk].
  - intros [= <-] Hne. by rewrite decide_False.
  - destruct (dict_del k d) as [r|] eqn:Hr; [|done].
    intros [= <-] Hne. simpl. destruct (decide (k0 = k')); [done|].
    by apply IH.
Qed.

Lemma dict_get_del_eq k d d' :
  dict_wf d → dict_del k d = Some d' → dict_get k d' = None.
Proof.
  unfold dict_wf, dict_keys.
  revert d'. induction d as [|[k0 v0] d IH]; simpl; intros d'; [done|].
  intros Hnd. apply NoDup_cons in Hnd as [Hk0 Hnd].
  destruct (decide (k0 = k)) as [->|Hk].
  - intros [= <-]. by apply dict_get_None_keys.
  - destruct (dict_del k d) as [r|] eqn:Hr; [|done].
    intros [= <-]. simpl. rewrite decide_False; [|done]. by apply IH.
Qed.
End py_dict_facts.

(** ** The outcome table *)

(** The three ordered pairs the first player wins. *)
Definition first_beats (a b : Move) : Prop :=
  (a, b) = (Rock, Scissors) ∨ (a, b) = (Paper, Rock) ∨ (a, b) = (Scissors, Paper).

Ltac eval_resolve :=
  repeat match goal with
         | |- context [resolve ?x ?y] =>
             let r := eval vm_compute in (resolve x y) in
             change (resolve x y) with r
         end.

(** C1: [resolve] is a total function on the nine ordered pairs of moves;
    it is a draw exactly when the two moves are equal, a win of the first
    player exactly on (rock, scissors), (paper, rock) and (scissors, paper),
    and a win of the second player on every remaining pair. *)
Theorem resolve_table (a b : Move) :
  (resolve a b = Draw ↔ a = b)
  ∧ (resolve a b = Player1Wins ↔ first_beats a b)
  ∧ (resolve a b = Player2Wins ↔ a ≠ b ∧ ¬ first_beats a b).
Proof.
  unfold first_beats. destruct a, b; eval_resolve; intuition congruence.
Qed.

(** C4: the first player wins [resolve a b] exactly when the second player
    wins [resolve b a]. *)
Theorem resolve_antisymmetric (a b : Move) :
  resolve a b = Player1Wins ↔ resolve b a = Player2Wins.
Proof. destruct a, b; eval_resolve; split; congruence. Qed.

(** ** Creating a match *)

(** C6: after [play] by [P], [user_games] maps [P] to the generated
    identifier and [active_games] holds under it a waiting record of [P]
    with the second player and both moves empty; the handler sends the
    identifier and does not raise. *)
Theorem play_creates (uuid4 : string) (P : Z) (st : State) :
  let game_id := substring 0 8 uuid4 in
  let o := play uuid4 P st in
  user_games (state o) !! P = Some game_id
  ∧ dict_get game_id (active_games (state o))
    = Some {| player1 := P; player2 := None;
              player1_move := None; player2_move := None;
              status := waiting |}
  ∧ replies o = [ReplyCreated game_id]
  ∧ raised o = None.
Proof.
  simpl. split_and!; [apply lookup_insert_eq | apply dict_get_set_eq | done..].
Qed.

(** ** Joining a match *)

Lemma find_available_Some P items game_id :
  find_available P items = Some game_id →
  ∃ game, (game_id, game) ∈ items ∧ status game = waiting ∧ player1 game ≠ P.
Proof.
  induction items as [|[k g] items IH]; simpl; [done|].
  destruct (bool_decide (status g = waiting) && bool_decide (player1 g ≠ P))
    eqn:Hc.
  - intros [= ->]. apply andb_true_iff in Hc as [Hs Hp].
    apply bool_decide_eq_true in Hs, Hp. exists g. split_and!; [apply list_elem_of_here | done..].
  - intros H. destruct (IH H) as (g' & Hin & Hs & Hp).
    exists g'. split_and!; [by apply list_elem_of_further | done..].
Qed.

Lemma find_available_None P items :
  (∀ game_id game, (game_id, game) ∈ items →
     ¬ (status game = waiting ∧ player1 game ≠ P)) →
  find_available P items = None.
Proof.
  induction items as [|[k g] items IH]; simpl; [done|]. intros Hall.
  destruct (bool_decide (status g = waiting) && bool_decide (player1 g ≠ P))
    eqn:Hc.
  - apply andb_true_iff in Hc as [Hs Hp].
    apply bool_decide_eq_true in Hs, Hp.
    exfalso. apply (Hall k g); [apply list_elem_of_here | done].
  - apply IH. intros k' g' Hin. apply (Hall k' g'). by apply list_elem_of_further.
Qed.

Lemma find_available_get P items game_id :
  dict_wf items →
  find_available P items = Some game_id →
  ∃ game, dict_get game_id items = Some game
          ∧ status game = waiting ∧ player1 game ≠ P.
Proof.
  intros Hwf Hk. apply find_available_Some in Hk as (g & Hin & Hs & Hp).
  exists g. split_and!; [by apply dict_wf_elem_of_get | done..].
Qed.

(** What a successful [join] did. *)
Lemma join_joined P st :
  replies (join P st) = [ReplyJoined] →
  ∃ game_id game,
    find_available P (active_games st) = Some game_id
    ∧ dict_get game_id (active_games st) = Some game
    ∧ state (join P st)
      = {| active_games :=
             dict_set game_id
               {| player1 := player1 game; player2 := Some P;
                  player1_move := player1_move game;
                  player2_move := player2_move game;
                  status := active |}
               (active_games st);
           user_games := <[P := game_id]> (user_games st) |}.
Proof.
  unfold join. destruct (find_available P (active_games st)) as [k|]; simpl;
    [|done].
  destruct (negb (bool_decide (k = ""))); simpl; [|done].
  destruct (dict_get k (active_games st)) as [g|] eqn:Hg; simpl; [|done].
  intros _. by exists k, g.
Qed.

(** C5: in a match table, the record [join] by [P] selects is waiting and
    has a first player other than [P]; when the join goes through, the
    record [P] is entered in has [P] as second player and somebody else as
    first player. *)
Theorem join_not_own_game (P : Z) (st : State) :
  dict_wf (active_games st) →
  (∀ game_id, find_available P (active_games st) = Some game_id →
     ∃ game, dict_get game_id (active_games st) = Some game
             ∧ status game = waiting ∧ player1 game ≠ P)
  ∧ (replies (join P st) = [ReplyJoined] →
     ∃ game_id game,
       find_available P (active_games st) = Some game_id
       ∧ user_games (state (join P st)) !! P = Some game_id
       ∧ dict_get game_id (active_games (state (join P st))) = Some game
       ∧ player1 game ≠ P ∧ player2 game = Some P).
Proof.
  intros Hwf.
  assert (Hsel : ∀ game_id, find_available P (active_games st) = Some game_id →
     ∃ game, dict_get game_id (active_games st) = Some game
             ∧ status game = waiting ∧ player1 game ≠ P).
  { intros k Hk. by apply find_available_get. }
  split; [exact Hsel|].
  intros Hj. destruct (join_joined _ _ Hj) as (k & g & Hk & Hg & ->).
  destruct (Hsel k Hk) as (g' & Hg' & _ & Hp).
  assert (g' = g) as -> by congruence.
  eexists k, _. simpl.
  split_and!; [done | apply lookup_insert_eq | apply dict_get_set_eq | done..].
Qed.

(** C7: when no record of the match table is waiting with a first player
    other than [P], [join] by [P] replies that no game is available and
    changes neither dictionary. *)
Theorem join_none_available (P : Z) (st : State) :
  (∀ game_id game, (game_id, game) ∈ active_games st →
     ¬ (status game = waiting ∧ player1 game ≠ P)) →
  join P st = {| state := st; replies := [ReplyNoGames]; raised := None |}.
Proof.
  intros Hall. unfold join. by rewrite (find_available_None _ _ Hall).
Qed.

(** ** Submitting a move *)

(** The slot [make_move] writes for [P], and the other one. *)
Definition own_move (P : Z) (game : Game) : option Move :=
  if decide (player1 game = P) then player1_move game else player2_move game.

Definition opponent_move (P : Z) (game : Game) : option Move :=
  if decide (player1 game = P) then player2_move game else player1_move game.

Lemma set_move_players P a game :
  player1 (set_move P a game) = player1 game
  ∧ player2 (set_move P a game) = player2 game
  ∧ status (set_move P a game) = status game.
Proof. unfold set_move. by destruct (decide (player1 game = P)). Qed.

Lemma set_move_own P a game : own_move P (set_move P a game) = Some a.
Proof.
  unfold own_move, set_move.
  destruct (decide (player1 game = P)); simpl; by case_decide.
Qed.

Lemma set_move_opponent P a game :
  opponent_move P (set_move P a game) = opponent_move P game.
Proof.
  unfold opponent_move, set_move.
  destruct (decide (player1 game = P)); simpl; by case_decide.
Qed.

(** A move submitted while the other slot is empty is only recorded. *)
Lemma make_move_recorded P a st game_id game :
  user_games st !! P = Some game_id →
  dict_get game_id (active_games st) = Some game →
  opponent_move P game = None →
  make_move P a st
  = {| state := {| active_games :=
                     dict_set game_id (set_move P a game) (active_games st);
                   user_games := user_games st |};
       replies := [ReplyChose a; ReplyWaiting];
       raised := None |}.
Proof.
  intros Hu Hg Hopp. unfold make_move. rewrite Hu, Hg.
  unfold opponent_move in Hopp. unfold set_move.
  destruct (decide (player1 game = P)); simpl; rewrite Hopp; [done|].
  by destruct (player1_move game).
Qed.

(** C8: [make_move] sends the not-in-game reply exactly when the sender has
    no entry in [user_games], and the game-not-found reply exactly when the
    sender's entry names an identifier that [active_games] does not hold;
    in both cases the two dictionaries are as before and nothing is
    raised. *)
Theorem make_move_errors (P : Z) (a : Move) (st : State) :
  let o := make_move P a st in
  (ReplyNotInGame ∈ replies o ↔ user_games st !! P = None)
  ∧ (ReplyGameNotFound ∈ replies o ↔
       ∃ game_id, user_games st !! P = Some game_id
                  ∧ dict_get game_id (active_games st) = None)
  ∧ (ReplyNotInGame ∈ replies o ∨ ReplyGameNotFound ∈ replies o →
       state o = st ∧ raised o = None).
Proof.
  assert (Hne : ∀ (r x y : Reply), r ≠ x → r ≠ y → r ∉ [x; y]).
  { intros r x y Hx Hy Hin.
    apply elem_of_cons in Hin as [->|Hin]; [done|].
    apply list_elem_of_singleton in Hin as ->. done. }
  simpl. unfold make_move.
  destruct (user_games st !! P) as [k|] eqn:Hu.
  - destruct (dict_get k (active_games st)) as [g|] eqn:Hg.
    + assert (Hrep : ∀ r, r = ReplyNotInGame ∨ r = ReplyGameNotFound →
        r ∉ replies
          match player1_move (set_move P a g), player2_move (set_move P a g) with
          | Some p1_move, Some p2_move =>
              let '(st2, exn) :=
                clean_up k (set_move P a g)
                  {| active_games := dict_set k (set_move P a g) (active_games st);
                     user_games := user_games st |} in
              {| state := st2;
                 replies := [ReplyChose a;
                             ReplyResult p1_move p2_move (resolve p1_move p2_move)];
                 raised := exn |}
          | _, _ =>
              {| state :=
                   {| active_games := dict_set k (set_move P a g) (active_games st);
                      user_games := user_games st |};
                 replies := [ReplyChose a; ReplyWaiting];
                 raised := None |}
          end).
      { intros r Hr.
        destruct (player1_move (set_move P a g)), (player2_move (set_move P a g));
          try destruct (clean_up _ _ _); simpl;
          apply Hne; destruct Hr as [-> | ->]; done. }
      split_and!.
      * split; [|done]. intros H. by apply Hrep in H; [|left].
      * split.
        -- intros H. by apply Hrep in H; [|right].
        -- intros (k' & [= <-] & Hk'). congruence.
      * intros [H|H]; exfalso; [by apply Hrep in H; [|left] | by apply Hrep in H; [|right]].
    + simpl. split_and!.
      * split; [|done]. intros H. apply list_elem_of_singleton in H. done.
      * split; [by exists k | intros _; apply list_elem_of_here].
      * done.
  - simpl. split_and!.
    + split; [done | intros _; apply list_elem_of_here].
    + split.
      * intros H. apply list_elem_of_singleton in H. done.
      * by intros (k' & ? & _).
    + done.
Qed.

(** C9: when [P]'s entry names a stored game whose other move slot is
    empty, a move by [P] is recorded and answered with the waiting reply,
    and a second move by [P] replaces it: afterwards [P]'s slot holds the
    second move, the other slot, both players and the status are as
    before, and so are the other games and [user_games]. *)
Theorem make_move_last_write_wins
    (P : Z) (a b : Move) (st : State) (game_id : string) (game : Game) :
  user_games st !! P = Some game_id →
  dict_get game_id (active_games st) = Some game →
  opponent_move P game = None →
  let o1 := make_move P a st in
  let o2 := make_move P b (state o1) in
  replies o1 = [ReplyChose a; ReplyWaiting]
  ∧ replies o2 = [ReplyChose b; ReplyWaiting]
  ∧ raised o1 = None ∧ raised o2 = None
  ∧ user_games (state o2) = user_games st
  ∧ (∀ other, other ≠ game_id →
       dict_get other (active_games (state o2))
       = dict_get other (active_games st))
  ∧ ∃ game1 game2,
      dict_get game_id (active_games (state o1)) = Some game1
      ∧ dict_get game_id (active_games (state o2)) = Some game2
      ∧ own_move P game1 = Some a
      ∧ own_move P game2 = Some b
      ∧ opponent_move P game2 = opponent_move P game1
      ∧ player1 game2 = player1 game1
      ∧ player2 game2 = player2 game1
      ∧ status game2 = status game1.
Proof.
  intros Hu Hg Hopp. simpl.
  rewrite (make_move_recorded P a st game_id game Hu Hg Hopp). simpl.
  pose proof (set_move_players P a game) as (Hp1 & Hp2 & Hs).
  pose proof (set_move_players P b (set_move P a game)) as (Hp1' & Hp2' & Hs').
  rewrite (make_move_recorded P b _ game_id (set_move P a game)); simpl;
    [| done | apply dict_get_set_eq | by rewrite set_move_opponent].
  split_and!; try done.
  - intros other Hne. by rewrite !dict_get_set_ne.
  - exists (set_move P a game), (set_move P b (set_move P a game)).
    rewrite !dict_get_set_eq, !set_move_own, !set_move_opponent.
    by split_and!.
Qed.

(** ** What the handlers do to the two dictionaries *)

Lemma clean_up_wf game_id game st :
  dict_wf (active_games st) →
  dict_wf (active_games (clean_up game_id game st).1).
Proof.
  intros Hwf. unfold clean_up.
  destruct (dict_del game_id (active_games st)) as [d|] eqn:Hd; simpl; [|done].
  apply (dict_wf_del _ _ _ Hwf) in Hd.
  by destruct (user_games st !! player1 game).
Qed.

Lemma clean_up_get game_id game st other game' :
  dict_wf (active_games st) →
  dict_get other (active_games (clean_up game_id game st).1) = Some game' →
  dict_get other (active_games st) = Some game'.
Proof.
  intros Hwf. unfold clean_up.
  destruct (dict_del game_id (active_games st)) as [d|] eqn:Hd; simpl; [|done].
  assert (dict_get other d = Some game' →
          dict_get other (active_games st) = Some game') as Hget.
  { intros H. destruct (decide (game_id = other)) as [<-|Hne].
    - rewrite (dict_get_del_eq _ _ _ Hwf Hd) in H. done.
    - by rewrite <- (dict_get_del_ne _ _ _ _ Hd Hne). }
  by destruct (user_games st !! player1 game).
Qed.

Lemma clean_up_users game_id game st user_id session :
  user_games (clean_up game_id game st).1 !! user_id = Some session →
  user_games st !! user_id = Some session.
Proof.
  unfold clean_up.
  destruct (dict_del game_id (active_games st)) as [d|]; simpl; [|done].
  destruct (user_games st !! player1 game); simpl; [|done].
  destruct (player2 game) as [p2|]; [case_decide|]; intros Hl;
    repeat (apply lookup_delete_Some in Hl as [_ Hl]); done.
Qed.

Lemma make_move_wf P a st :
  dict_wf (active_games st) →
  dict_wf (active_games (state (make_move P a st))).
Proof.
  intros Hwf. unfold make_move.
  destruct (user_games st !! P) as [k|]; [|done].
  destruct (dict_get k (active_games st)) as [g|]; [|done].
  set (st1 := {| active_games := dict_set k (set_move P a g) (active_games st);
                 user_games := user_games st |}).
  assert (dict_wf (active_games st1)) as Hwf1 by by apply dict_wf_set.
  pose proof (clean_up_wf k (set_move P a g) st1 Hwf1) as Hc.
  destruct (player1_move (set_move P a g)), (player2_move (set_move P a g));
    try done.
  by destruct (clean_up k (set_move P a g) st1).
Qed.

(** Every record left after [make_move] is a record that was there, as it
    was or with the sender's move written into it. *)
Lemma make_move_get P a st other game' :
  dict_wf (active_games st) →
  dict_get other (active_games (state (make_move P a st))) = Some game' →
  ∃ game, dict_get other (active_games st) = Some game
          ∧ (game' = game
             ∨ (game' = set_move P a game ∧ user_games st !! P = Some other)).
Proof.
  intros Hwf. unfold make_move.
  destruct (user_games st !! P) as [k|] eqn:Hu; [|by eauto].
  destruct (dict_get k (active_games st)) as [g|] eqn:Hg; [|by eauto].
  set (st1 := {| active_games := dict_set k (set_move P a g) (active_games st);
                 user_games := user_games st |}).
  assert (dict_wf (active_games st1)) as Hwf1 by by apply dict_wf_set.
  assert (dict_get other (active_games st1) = Some game' →
    ∃ game, dict_get other (active_games st) = Some game
            ∧ (game' = game
               ∨ (game' = set_move P a game ∧ Some k = Some other))) as Hst1.
  { simpl. destruct (decide (k = other)) as [<-|Hne].
    - rewrite dict_get_set_eq. intros [= <-]. eauto.
    - rewrite dict_get_set_ne by done. eauto. }
  pose proof (clean_up_get k (set_move P a g) st1 other game' Hwf1) as Hc.
  destruct (player1_move (set_move P a g)), (player2_move (set_move P a g));
    try done.
  destruct (clean_up k (set_move P a g) st1); simpl in *. auto.
Qed.

Lemma make_move_users P a st user_id session :
  user_games (state (make_move P a st)) !! user_id = Some session →
  user_games st !! user_id = Some session.
Proof.
  unfold make_move.
  destruct (user_games st !! P) as [k|]; [|done].
  destruct (dict_get k (active_games st)) as [g|]; [|done].
  set (st1 := {| active_games := dict_set k (set_move P a g) (active_games st);
                 user_games := user_games st |}).
  pose proof (clean_up_users k (set_move P a g) st1 user_id session) as Hc.
  destruct (player1_move (set_move P a g)), (player2_move (set_move P a g));
    try done.
  destruct (clean_up k (set_move P a g) st1); simpl in *. auto.
Qed.

Lemma handle_move P a st : handle P (CmdMove a) st = make_move P a st.
Proof. by destruct a. Qed.

Lemma join_cases P st :
  join P st = {| state := st; replies := [ReplyNoGames]; raised := None |}
  ∨ replies (join P st) = [ReplyJoined]
  ∨ (join P st = {| state := st; replies := []; raised := Some KeyError |}).
Proof.
  unfold join. destruct (find_available P (active_games st)) as [k|]; simpl;
    [|by left].
  destruct (negb (bool_decide (k = ""))); simpl; [|by left].
  destruct (dict_get k (active_games st)); simpl; auto.
Qed.

(** ** Invariants of the reachable states *)

(** The participant slots of a record agree with its status, and the two
    participants differ. *)
Definition slots_ok (game : Game) : Prop :=
  (status game = waiting → player2 game = None)
  ∧ (status game = active → is_Some (player2 game))
  ∧ player2 game ≠ Some (player1 game).

Definition table_ok (st : State) : Prop :=
  dict_wf (active_games st)
  ∧ ∀ game_id game,
      dict_get game_id (active_games st) = Some game → slots_ok game.

(** A session entry that names a stored game belongs to one of its two
    participants. *)
Definition sessions_ok (st : State) : Prop :=
  ∀ user_id game_id game,
    user_games st !! user_id = Some game_id →
    dict_get game_id (active_games st) = Some game →
    player1 game = user_id ∨ player2 game = Some user_id.

Definition second_move_ok (st : State) : Prop :=
  ∀ game_id game,
    dict_get game_id (active_games st) = Some game →
    status game = waiting → player2_move game = None.

Lemma slots_ok_set_move P a game : slots_ok game → slots_ok (set_move P a game).
Proof.
  unfold slots_ok. by destruct (set_move_players P a game) as (-> & -> & ->).
Qed.

Lemma handle_table_ok P c st : table_ok st → table_ok (state (handle P c st)).
Proof.
  intros [Hwf Hall]. destruct c as [uuid4| |a].
  - split; simpl; [by apply dict_wf_set|].
    intros k g. destruct (decide (substring 0 8 uuid4 = k)) as [<-|Hne].
    + rewrite dict_get_set_eq. intros [= <-]. by split_and!.
    + rewrite dict_get_set_ne by done. apply Hall.
  - simpl. destruct (join_cases P st) as [->|[Hj| ->]]; [done| |done].
    destruct (join_joined _ _ Hj) as (k & g & Hk & Hg & ->).
    destruct (find_available_get _ _ _ Hwf Hk) as (g' & Hg' & Hs & Hp).
    assert (g' = g) as -> by congruence.
    split; simpl; [by apply dict_wf_set|].
    intros k' g'. destruct (decide (k = k')) as [<-|Hne].
    + rewrite dict_get_set_eq. intros [= <-].
      split_and!; simpl; [done | by eexists | congruence].
    + rewrite dict_get_set_ne by done. apply Hall.
  - rewrite handle_move. split; [by apply make_move_wf|].
    intros k g' Hg'.
    destruct (make_move_get _ _ _ _ _ Hwf Hg') as (g & Hg & [->|[-> _]]).
    + by eapply Hall.
    + apply slots_ok_set_move. by eapply Hall.
Qed.

Lemma reachable_table_ok st : reachable st → table_ok st.
Proof.
  induction 1 as [|st P c _ IH].
  - split; [apply NoDup_nil_2 | done].
  - by apply handle_table_ok.
Qed.

Lemma reachable_fresh_reachable st : reachable_fresh st → reachable st.
Proof. induction 1; by constructor. Qed.

Lemma handle_sessions_ok P c st :
  table_ok st → fresh_command c st → sessions_ok st →
  sessions_ok (state (handle P c st)).
Proof.
  intros [Hwf Hall] Hfresh Hses. destruct c as [uuid4| |a].
  - destruct Hfresh as [_ Hnew]. intros u k g. simpl.
    destruct (decide (P = u)) as [<-|Hu].
    + rewrite lookup_insert_eq. intros [= <-].
      rewrite dict_get_set_eq. intros [= <-]. by left.
    + rewrite lookup_insert_ne by done. intros Hk.
      rewrite dict_get_set_ne; [by apply Hses|].
      intros <-. by apply (Hnew u _ Hk).
  - simpl. destruct (join_cases P st) as [->|[Hj| ->]]; [done| |done].
    destruct (join_joined _ _ Hj) as (k & g & Hk & Hg & ->).
    destruct (find_available_get _ _ _ Hwf Hk) as (g' & Hg' & Hs & Hp).
    assert (g' = g) as -> by congruence.
    destruct (Hall k g Hg) as (Hw & _ & _).
    intros u k' g'. simpl. destruct (decide (P = u)) as [<-|Hu].
    + rewrite lookup_insert_eq. intros [= <-].
      rewrite dict_get_set_eq. intros [= <-]. by right.
    + rewrite lookup_insert_ne by done. intros Hk'.
      destruct (decide (k = k')) as [<-|Hne].
      * rewrite dict_get_set_eq. intros [= <-]. simpl.
        destruct (Hses u k g Hk' Hg) as [?|Hp2]; [by left|].
        rewrite (Hw Hs) in Hp2. done.
      * rewrite dict_get_set_ne by done. by apply Hses.
  - rewrite handle_move. intros u k g' Hu Hg'.
    apply make_move_users in Hu.
    destruct (make_move_get _ _ _ _ _ Hwf Hg') as (g & Hg & [->|[-> _]]).
    + by eapply Hses.
    + destruct (set_move_players P a g) as (-> & -> & _). by eapply Hses.
Qed.

Lemma handle_second_move_ok P c st :
  table_ok st → sessions_ok st → second_move_ok st →
  second_move_ok (state (handle P c st)).
Proof.
  intros [Hwf Hall] Hses Hsnd. destruct c as [uuid4| |a].
  - intros k g. simpl. destruct (decide (substring 0 8 uuid4 = k)) as [<-|Hne].
    + rewrite dict_get_set_eq. by intros [= <-].
    + rewrite dict_get_set_ne by done. apply Hsnd.
  - simpl. destruct (join_cases P st) as [->|[Hj| ->]]; [done| |done].
    destruct (join_joined _ _ Hj) as (k & g & Hk & Hg & ->).
    intros k' g'. simpl. destruct (decide (k = k')) as [<-|Hne].
    + rewrite dict_get_set_eq. by intros [= <-].
    + rewrite dict_get_set_ne by done. apply Hsnd.
  - rewrite handle_move. intros k g' Hg'.
    destruct (make_move_get _ _ _ _ _ Hwf Hg') as (g & Hg & [->|[-> Hu]]).
    + by eapply Hsnd.
    + destruct (set_move_players P a g) as (_ & _ & ->). intros Hs.
      destruct (Hall k g Hg) as (Hw & _ & _).
      destruct (Hses P k g Hu Hg) as [Hp1|Hp2].
      * unfold set_move. rewrite decide_True by done. simpl. by eapply Hsnd.
      * rewrite (Hw Hs) in Hp2. done.
Qed.

Lemma reachable_fresh_ok st :
  reachable_fresh st → sessions_ok st ∧ second_move_ok st.
Proof.
  induction 1 as [|st P c Hr [IH1 IH2] Hfresh].
  - split; [intros u k g Hu; simpl in Hu; by rewrite lookup_empty in Hu | by intros k g].
  - pose proof (reachable_table_ok _ (reachable_fresh_reachable _ Hr)) as Htab.
    split; [by apply handle_sessions_ok | by apply handle_second_move_ok].
Qed.

Lemma reachable_run cmds st : reachable st → reachable (run cmds st).
Proof.
  revert st. induction cmds as [|[u c] cmds IH]; intros st Hr; simpl; [done|].
  apply IH. by constructor.
Qed.

(** Every [play] of the list draws an identifier that is fresh when it is
    drawn. *)
Fixpoint fresh_run (cmds : list (Z * Command)) (st : State) : Prop :=
  match cmds with
  | [] => True
  | (user_id, c) :: rest =>
      fresh_command c st ∧ fresh_run rest (state (handle user_id c st))
  end.

Lemma reachable_fresh_run cmds st :
  reachable_fresh st → fresh_run cmds st → reachable_fresh (run cmds st).
Proof.
  revert st. induction cmds as [|[u c] cmds IH]; intros st Hr Hf; simpl; [done|].
  destruct Hf as [Hc Hf]. apply IH; [by constructor | done].
Qed.

#[global] Instance fresh_id_dec game_id st : Decision (fresh_id game_id st).
Proof. unfold fresh_id. apply _. Defined.

#[global] Instance fresh_command_dec c st : Decision (fresh_command c st).
Proof. destruct c; simpl; apply _. Defined.

#[global] Instance fresh_run_dec cmds st : Decision (fresh_run cmds st).
Proof.
  revert st. induction cmds as [|[u c] cmds IH]; intros st; simpl; apply _.
Defined.

(** ** The awaiting-opponent and in-progress invariant *)

(** C3, as far as it holds: in every reachable state a waiting record has
    no second player and an active record has one; when every [play] draws
    a fresh identifier, a waiting record also has its second move slot
    empty.  (The first move slot of a waiting record is not constrained:
    its creator may move before anybody joins.) *)
Theorem status_invariant :
  (∀ st game_id game,
     reachable st →
     dict_get game_id (active_games st) = Some game →
     (status game = waiting → player2 game = None)
     ∧ (status game = active → is_Some (player2 game)))
  ∧ (∀ st game_id game,
       reachable_fresh st →
       dict_get game_id (active_games st) = Some game →
       status game = waiting → player2_move game = None).
Proof.
  split.
  - intros st k g Hr Hg.
    destruct (reachable_table_ok st Hr) as [_ Hall].
    destruct (Hall k g Hg) as (? & ? & _). done.
  - intros st k g Hr Hg Hs.
    destruct (reachable_fresh_ok st Hr) as [_ Hsnd]. by eapply Hsnd.
Qed.

(** ** Leaving a match behind *)


(** ** Resolving a match *)

(** The session entries left by the last two deletions of [clean_up]. *)
Definition drop_players (p1 : Z) (p2 : option Z) (users : gmap Z string)
  : gmap Z string :=
  match p2 with
  | Some p2 =>
      if decide (is_Some (delete p1 users !! p2)) then delete p2 (delete p1 users)
      else delete p1 users
  | None => delete p1 users
  end.

Lemma drop_players_lookup p1 p2 users :
  drop_players p1 p2 users !! p1 = None
  ∧ ∀ q, p2 = Some q → drop_players p1 p2 users !! q = None.
Proof.
  unfold drop_players. destruct p2 as [q|].
  - case_decide as Hin.
    + split.
      * destruct (decide (q = p1)) as [->|Hne]; [apply lookup_delete_eq|].
        rewrite lookup_delete_ne by done. apply lookup_delete_eq.
      * intros ? [= <-]. apply lookup_delete_eq.
    + split; [apply lookup_delete_eq|].
      intros ? [= <-]. by apply eq_None_not_Some.
  - split; [apply lookup_delete_eq | done].
Qed.

Lemma clean_up_first_player_present game_id game st games session :
  dict_del game_id (active_games st) = Some games →
  user_games st !! player1 game = Some session →
  clean_up game_id game st
  = ({| active_games := games;
        user_games := drop_players (player1 game) (player2 game) (user_games st) |},
     None).
Proof. intros Hdel Hs. unfold clean_up, drop_players. by rewrite Hdel; simpl; rewrite Hs. Qed.

(** X2: when a move fills the second of the two slots and the first player of
    the game still has a session entry, [make_move] sends the result,
    removes the game and the entries of both players, and raises
    nothing. *)
Theorem resolution_cleans_up
    (P : Z) (a b : Move) (st : State) (game_id : string) (game : Game) :
  dict_wf (active_games st) →
  user_games st !! P = Some game_id →
  dict_get game_id (active_games st) = Some game →
  opponent_move P game = Some b →
  is_Some (user_games st !! player1 game) →
  let o := make_move P a st in
  raised o = None
  ∧ dict_get game_id (active_games (state o)) = None
  ∧ user_games (state o) !! player1 game = None
  ∧ (∀ p2, player2 game = Some p2 → user_games (state o) !! p2 = None)
  ∧ replies o
    = [ReplyChose a;
       if decide (player1 game = P) then ReplyResult a b (resolve a b)
       else ReplyResult b a (resolve b a)].
Proof.
  intros Hwf Hu Hg Hopp [s1 Hs1]. unfold make_move. rewrite Hu, Hg. cbv zeta.
  destruct (set_move_players P a game) as (Hp1 & Hp2 & _).
  assert (player1_move (set_move P a game)
          = (if decide (player1 game = P) then Some a else Some b)
          ∧ player2_move (set_move P a game)
            = (if decide (player1 game = P) then Some b else Some a))
    as [Hm1 Hm2].
  { unfold opponent_move in Hopp. unfold set_move.
    destruct (decide (player1 game = P)); simpl; by rewrite Hopp. }
  set (g := set_move P a game) in *.
  set (d := dict_set game_id g (active_games st)).
  assert (dict_wf d) as Hwfd by by apply dict_wf_set.
  destruct (dict_del_is_Some game_id d) as [d' Hd'].
  { unfold d. rewrite dict_get_set_eq. by eexists. }
  assert (user_games st !! player1 g = Some s1) as Hs1' by by rewrite Hp1.
  pose proof (clean_up_first_player_present game_id g
                {| active_games := d; user_games := user_games st |}
                d' s1 Hd' Hs1') as Hclean.
  destruct (drop_players_lookup (player1 g) (player2 g) (user_games st))
    as [Hgone1 Hgone2].
  rewrite Hm1, Hm2.
  destruct (decide (player1 game = P)); rewrite Hclean; simpl;
    (split_and!;
     [ done
     | by apply (dict_get_del_eq _ _ _ Hwfd Hd')
     | by rewrite <- Hp1
     | intros p2 Hp2'; apply Hgone2; by rewrite Hp2
     | done ]).
Qed.

(** When the first player has no session entry left at that point, the
    second deletion raises: the game is gone, [user_games] is as before,
    so the sender's entry now names a game that is not stored. *)
Lemma make_move_resolve_raises P a b st game_id game :
  dict_wf (active_games st) →
  user_games st !! P = Some game_id →
  dict_get game_id (active_games st) = Some game →
  opponent_move P game = Some b →
  user_games st !! player1 game = None →
  let o := make_move P a st in
  raised o = Some KeyError
  ∧ dict_get game_id (active_games (state o)) = None
  ∧ user_games (state o) = user_games st.
Proof.
  intros Hwf Hu Hg Hopp Hs1. simpl. unfold make_move. rewrite Hu, Hg.
  destruct (set_move_players P a game) as (Hp1 & _ & _).
  assert (is_Some (player1_move (set_move P a game))
          ∧ is_Some (player2_move (set_move P a game))) as [[m1 Hm1] [m2 Hm2]].
  { unfold opponent_move in Hopp. unfold set_move.
    destruct (decide (player1 game = P)); simpl; by rewrite Hopp. }
  set (g := set_move P a game) in *.
  set (d := dict_set game_id g (active_games st)).
  assert (dict_wf d) as Hwfd by by apply dict_wf_set.
  destruct (dict_del_is_Some game_id d) as [d' Hd'].
  { unfold d. rewrite dict_get_set_eq. by eexists. }
  rewrite Hm1, Hm2. unfold clean_up. simpl. fold d. rewrite Hd'. simpl.
  rewrite Hp1, Hs1. simpl.
  split_and!; [done | by apply (dict_get_del_eq _ _ _ Hwfd Hd') | done].
Qed.

(** ** A run that ends in the unguarded deletion *)

Definition uuid_a : string := "3f2a9c1e-7b4d-4e8a-9c3b-5d6e7f8a9b0c".
Definition uuid_b : string := "b81d04c7-2e5f-4a6b-8d9e-0f1a2b3c4d5e".

(** User 101 opens a game, 202 joins it and 101 moves; 101 then opens a
    second game, which 303 joins and which the two of them finish, so that
    the entry of 101 is deleted while the first game is still stored. *)
Definition first_player_left : list (Z * Command) :=
  [(101, CmdPlay uuid_a); (202, CmdJoin); (101, CmdMove Rock);
   (101, CmdPlay uuid_b); (303, CmdJoin); (101, CmdMove Rock);
   (303, CmdMove Paper)].

(** C2, where the code departs from it: after [first_player_left], a state
    reached with fresh identifiers, the move of 202 fills both slots of
    the first game; the result is sent and the game deleted, then
    [del user_games[game['player1']]] raises [KeyError], and the entry of
    202 still names the deleted game. *)
Theorem resolution_raises_KeyError :
  let st := run first_player_left initial_state in
  let o := make_move 202 Scissors st in
  reachable_fresh st
  ∧ user_games st !! 202 = Some "3f2a9c1e"
  ∧ dict_get "3f2a9c1e" (active_games st)
    = Some {| player1 := 101; player2 := Some 202;
              player1_move := Some Rock; player2_move := None;
              status := active |}
  ∧ user_games st !! 101 = None
  ∧ replies o = [ReplyChose Scissors; ReplyResult Rock Scissors Player1Wins]
  ∧ raised o = Some KeyError
  ∧ dict_get "3f2a9c1e" (active_games (state o)) = None
  ∧ user_games (state o) !! 202 = Some "3f2a9c1e".
Proof.
  intros st o. split_and!; [|vm_compute; reflexivity..].
  apply reachable_fresh_run; [constructor|].
  apply (bool_decide_unpack _). vm_compute. exact I.
Qed.

(** The invariant of C3 as it is stated fails after [play] and one move of
    the creator: the record is still waiting and its first move slot is
    filled. *)
Lemma status_invariant_as_stated_fails :
  ¬ (∀ st game_id game,
       reachable st →
       dict_get game_id (active_games st) = Some game →
       (status game = waiting →
          player2 game = None
          ∧ player1_move game = None ∧ player2_move game = None)
       ∧ (status game = active → is_Some (player2 game))).
Proof.
  intros Hclaim.
  pose (st := run [(101, CmdPlay uuid_a); (101, CmdMove Rock)] initial_state).
  assert (reachable st) as Hr by (apply reachable_run; constructor).
  pose (game := {| player1 := 101; player2 := None;
                   player1_move := Some Rock; player2_move := None;
                   status := waiting |}).
  assert (dict_get "3f2a9c1e" (active_games st) = Some game) as Hg
    by (vm_compute; reflexivity).
  destruct (Hclaim st "3f2a9c1e" game Hr Hg) as [Hw _].
  destruct (Hw eq_refl) as (_ & Hm & _). discriminate Hm.
Qed.

(** ** The theorems at concrete runs *)

(** User 101 has opened a game and waits. *)
Definition one_waiting : State := run [(101, CmdPlay uuid_a)] initial_state.

(** User 202 has joined the game of 101. *)
Definition one_active : State :=
  run [(101, CmdPlay uuid_a); (202, CmdJoin)] initial_state.

(** Users 101 and 202 have each opened a game. *)
Definition two_waiting : State :=
  run [(101, CmdPlay uuid_a); (202, CmdPlay uuid_b)] initial_state.

Lemma one_waiting_fresh : reachable_fresh one_waiting.
Proof.
  apply reachable_fresh_run; [constructor|].
  apply (bool_decide_unpack _). vm_compute. exact I.
Defined.


Lemma one_waiting_wf : dict_wf (active_games one_waiting).
Proof.
  unfold dict_wf, dict_keys. apply (bool_decide_unpack _). vm_compute. exact I.
Defined.

Lemma join_not_own_game_witness :
  dict_wf (active_games one_waiting)
  ∧ ∃ game_id game,
      find_available 202 (active_games one_waiting) = Some game_id
      ∧ user_games (state (join 202 one_waiting)) !! 202 = Some game_id
      ∧ dict_get game_id (active_games (state (join 202 one_waiting)))
        = Some game
      ∧ player1 game ≠ 202 ∧ player2 game = Some 202.
Proof.
  split; [exact one_waiting_wf|].
  destruct (join_not_own_game 202 one_waiting one_waiting_wf) as [_ Hjoined].
  apply Hjoined. vm_compute. reflexivity.
Defined.

Lemma join_none_available_witness :
  (∀ game_id game, (game_id, game) ∈ active_games one_waiting →
     ¬ (status game = waiting ∧ player1 game ≠ 101))
  ∧ join 101 one_waiting
    = {| state := one_waiting; replies := [ReplyNoGames]; raised := None |}.
Proof.
  assert (∀ game_id game, (game_id, game) ∈ active_games one_waiting →
            ¬ (status game = waiting ∧ player1 game ≠ 101)) as Hnone.
  { assert (active_games one_waiting
            = [("3f2a9c1e",
                {| player1 := 101; player2 := None;
                   player1_move := None; player2_move := None;
                   status := waiting |})]) as -> by (vm_compute; reflexivity).
    intros k g Hin [_ Hp]. apply list_elem_of_singleton in Hin.
    injection Hin as -> ->. by apply Hp. }
  split; [exact Hnone|]. exact (join_none_available 101 one_waiting Hnone).
Defined.

Lemma make_move_last_write_wins_witness :
  user_games one_active !! 101 = Some "3f2a9c1e"
  ∧ replies (make_move 101 Paper (state (make_move 101 Rock one_active)))
    = [ReplyChose Paper; ReplyWaiting]
  ∧ ∃ game2,
      dict_get "3f2a9c1e"
        (active_games (state (make_move 101 Paper
                                (state (make_move 101 Rock one_active)))))
      = Some game2
      ∧ own_move 101 game2 = Some Paper.
Proof.
  assert (user_games one_active !! 101 = Some "3f2a9c1e") as Hu
    by (vm_compute; reflexivity).
  assert (dict_get "3f2a9c1e" (active_games one_active)
          = Some {| player1 := 101; player2 := Some 202;
                    player1_move := None; player2_move := None;
                    status := active |}) as Hg by (vm_compute; reflexivity).
  pose proof (make_move_last_write_wins 101 Rock Paper one_active _ _ Hu Hg
                eq_refl) as Hw.
  cbv zeta in Hw.
  destruct Hw as (_ & Hr2 & _ & _ & _ & _ & g1 & g2 & _ & Hg2 & _ & Hown & _).
  split; [exact Hu|]. split; [exact Hr2|]. exists g2. by split.
Defined.

Lemma status_invariant_witness :
  reachable_fresh one_waiting
  ∧ ∃ game,
      dict_get "3f2a9c1e" (active_games one_waiting) = Some game
      ∧ status game = waiting
      ∧ player2 game = None ∧ player2_move game = None.
Proof.
  split; [exact one_waiting_fresh|].
  assert (dict_get "3f2a9c1e" (active_games one_waiting)
          = Some {| player1 := 101; player2 := None;
                    player1_move := None; player2_move := None;
                    status := waiting |}) as Hg by (vm_compute; reflexivity).
  destruct status_invariant as [Hslots Hsecond].
  eexists. split; [exact Hg|]. split; [reflexivity|]. split.
  - exact (proj1 (Hslots _ _ _ (reachable_fresh_reachable _ one_waiting_fresh)
                    Hg) eq_refl).
  - exact (Hsecond _ _ _ one_waiting_fresh Hg eq_refl).
Defined.




(** ** Two further properties of the lifecycle *)

(** X1: in every reachable state no stored game has the same user in both
    participant slots. *)
Theorem no_self_match (st : State) (game_id : string) (game : Game) :
  reachable st →
  dict_get game_id (active_games st) = Some game →
  player2 game ≠ Some (player1 game).
Proof.
  intros Hr Hg. destruct (reachable_table_ok st Hr) as [_ Hall].
  by destruct (Hall game_id game Hg) as (_ & _ & ?).
Qed.

Lemma no_self_match_witness :
  reachable one_active
  ∧ dict_get "3f2a9c1e" (active_games one_active)
    = Some {| player1 := 101; player2 := Some 202;
              player1_move := None; player2_move := None;
              status := active |}
  ∧ Some 202 ≠ Some 101.
Proof.
  assert (reachable one_active) as Hr by (apply reachable_run; constructor).
  assert (dict_get "3f2a9c1e" (active_games one_active)
          = Some {| player1 := 101; player2 := Some 202;
                    player1_move := None; player2_move := None;
                    status := active |}) as Hg by (vm_compute; reflexivity).
  split; [exact Hr|]. split; [exact Hg|].
  exact (no_self_match one_active _ _ Hr Hg).
Defined.

(** User 202 has joined the game of 101, and 101 has moved. *)
Definition one_moved : State :=
  run [(101, CmdPlay uuid_a); (202, CmdJoin); (101, CmdMove Rock)]
    initial_state.

Lemma resolution_cleans_up_witness :
  raised (make_move 202 Scissors one_moved) = None
  ∧ dict_get "3f2a9c1e" (active_games (state (make_move 202 Scissors one_moved)))
    = None
  ∧ user_games (state (make_move 202 Scissors one_moved)) !! 101 = None
  ∧ user_games (state (make_move 202 Scissors one_moved)) !! 202 = None.
Proof.
  assert (dict_wf (active_games one_moved)) as Hwf.
  { unfold dict_wf, dict_keys. apply (bool_decide_unpack _).
    vm_compute. exact I. }
  assert (user_games one_moved !! 202 = Some "3f2a9c1e") as Hu
    by (vm_compute; reflexivity).
  assert (dict_get "3f2a9c1e" (active_games one_moved)
          = Some {| player1 := 101; player2 := Some 202;
                    player1_move := Some Rock; player2_move := None;
                    status := active |}) as Hg by (vm_compute; reflexivity).
  assert (is_Some (user_games one_moved !! 101)) as Hp1
    by (exists "3f2a9c1e"; vm_compute; reflexivity).
  pose proof (resolution_cleans_up 202 Scissors Rock one_moved _ _
                Hwf Hu Hg eq_refl Hp1) as Hw.
  cbv zeta in Hw. destruct Hw as (Hr & Hd & H1 & H2 & _).
  split; [exact Hr|]. split; [exact Hd|]. split; [exact H1|].
  exact (H2 202 eq_refl).
Defined.

(** ** Which game [join] offers *)

(** A game [P] may join: it is waiting and somebody else created it. *)
Definition eligible (P : Z) (game : Game) : Prop :=
  status game = waiting ∧ player1 game ≠ P.

Lemma find_available_app_skip P l1 l2 :
  (∀ k g, (k, g) ∈ l1 → ¬ eligible P g) →
  find_available P (l1 ++ l2) = find_available P l2.
Proof.
  induction l1 as [|[k g] l1 IH]; intros Hnone; simpl; [done|].
  destruct (bool_decide (status g = waiting) && bool_decide (player1 g ≠ P))
    eqn:Hc.
  - apply andb_true_iff in Hc as [Hs Hp].
    apply bool_decide_eq_true in Hs, Hp.
    exfalso. apply (Hnone k g); [apply list_elem_of_here | by split].
  - apply IH. intros k' g' Hin. apply (Hnone k' g').
    by apply list_elem_of_further.
Qed.

Lemma find_available_here P game_id game rest :
  eligible P game → find_available P ((game_id, game) :: rest) = Some game_id.
Proof.
  intros [Hs Hp]. simpl.
  by rewrite (bool_decide_eq_true_2 _ Hs), (bool_decide_eq_true_2 _ Hp).
Qed.

Lemma find_available_split P items game_id :
  find_available P items = Some game_id →
  ∃ l1 game l2,
    items = (l1 ++ (game_id, game) :: l2)%list
    ∧ eligible P game
    ∧ ∀ k g, (k, g) ∈ l1 → ¬ eligible P g.
Proof.
  induction items as [|[k g] items IH]; simpl; [done|].
  destruct (bool_decide (status g = waiting) && bool_decide (player1 g ≠ P))
    eqn:Hc.
  - intros [= ->]. apply andb_true_iff in Hc as [Hs Hp].
    apply bool_decide_eq_true in Hs, Hp.
    exists [], g, items. split_and!; [done | by split |].
    intros k' g' Hin. by apply elem_of_nil in Hin.
  - intros Hfind. destruct (IH Hfind) as (l1 & g' & l2 & -> & Hel & Hnone).
    exists ((k, g) :: l1), g', l2. split_and!; [done | done |].
    intros k' g'' Hin [Hs Hp]. apply elem_of_cons in Hin as [[= -> ->]|Hin].
    + apply andb_false_iff in Hc as [Hc|Hc];
        apply bool_decide_eq_false in Hc; done.
    + by apply (Hnone k' g'' Hin).
Qed.

(** X3: [join] is first come, first served: the game selected for [P] is the
    one stored under [game_id] exactly when the dictionary, in its
    insertion order, holds an eligible game under [game_id] and no
    eligible game before it. *)
Theorem join_first_available (P : Z) (items : list (string * Game))
    (game_id : string) :
  find_available P items = Some game_id
  ↔ ∃ l1 game l2,
      items = (l1 ++ (game_id, game) :: l2)%list
      ∧ eligible P game
      ∧ ∀ k g, (k, g) ∈ l1 → ¬ eligible P g.
Proof.
  split; [apply find_available_split|].
  intros (l1 & g & l2 & -> & Hel & Hnone).
  rewrite (find_available_app_skip _ _ _ Hnone).
  by apply find_available_here.
Qed.

Lemma dict_get_is_Some_elem_of {V} (k : string) (v : V) d :
  (k, v) ∈ d → is_Some (dict_get k d).
Proof.
  induction d as [|[k' v'] d IH]; simpl.
  - intros Hin. by apply elem_of_nil in Hin.
  - intros Hin. destruct (decide (k' = k)); [by eexists|].
    apply elem_of_cons in Hin as [[= -> ->]|Hin]; [done | by apply IH].
Qed.

Lemma find_available_is_Some P items game_id game :
  (game_id, game) ∈ items → eligible P game →
  is_Some (find_available P items).
Proof.
  induction items as [|[k g] items IH]; simpl.
  - intros Hin. by apply elem_of_nil in Hin.
  - intros Hin Hel.
    destruct (bool_decide (status g = waiting) && bool_decide (player1 g ≠ P))
      eqn:Hc; [by eexists|].
    apply elem_of_cons in Hin as [[= -> ->]|Hin]; [|by apply IH].
    destruct Hel as [Hs Hp].
    by rewrite (bool_decide_eq_true_2 _ Hs), (bool_decide_eq_true_2 _ Hp) in Hc.
Qed.

(** X4: [join] succeeds whenever a game is there to be joined: if some stored
    game is waiting and was created by somebody else, and no stored
    identifier is the empty string, [join] sends the joined reply and
    raises nothing. *)
Theorem join_succeeds (P : Z) (st : State) :
  (∃ game_id game, (game_id, game) ∈ active_games st ∧ eligible P game) →
  (∀ game_id game, (game_id, game) ∈ active_games st → game_id ≠ "") →
  replies (join P st) = [ReplyJoined] ∧ raised (join P st) = None.
Proof.
  intros (k0 & g0 & Hin0 & Hel0) Hids.
  destruct (find_available_is_Some P _ k0 g0 Hin0 Hel0) as [k Hk].
  destruct (find_available_split _ _ _ Hk) as (l1 & g & l2 & Hitems & _ & _).
  assert ((k, g) ∈ active_games st) as Hin.
  { rewrite Hitems. apply elem_of_app. right. apply list_elem_of_here. }
  destruct (dict_get_is_Some_elem_of k g _ Hin) as [g' Hg'].
  unfold join. rewrite Hk. simpl.
  rewrite (bool_decide_eq_false_2 _ (Hids k g Hin)). simpl. by rewrite Hg'.
Qed.

(** X5: [join] never raises: the game it looks up is one the loop has just
    found.  It either changes nothing and sends the no-games reply, or
    sends the joined reply. *)
Theorem join_outcomes (P : Z) (st : State) :
  raised (join P st) = None
  ∧ (join P st = {| state := st; replies := [ReplyNoGames]; raised := None |}
     ∨ replies (join P st) = [ReplyJoined]).
Proof.
  unfold join.
  destruct (find_available P (active_games st)) as [k|] eqn:Hk; simpl;
    [|by auto].
  destruct (negb (bool_decide (k = ""))); simpl; [|by auto].
  destruct (find_available_split _ _ _ Hk) as (l1 & g & l2 & Hitems & _ & _).
  assert (is_Some (dict_get k (active_games st))) as [g' ->]; [|by auto].
  apply (dict_get_is_Some_elem_of k g). rewrite Hitems.
  apply elem_of_app. right. apply list_elem_of_here.
Qed.

(** ** Where [play] puts the new game *)

Lemma dict_set_absent {V} (k : string) (v : V) d :
  dict_get k d = None → dict_set k v d = (d ++ [(k, v)])%list.
Proof.
  induction d as [|[k' v'] d IH]; simpl; [done|].
  destruct (decide (k' = k)); [done|]. intros H. by rewrite IH.
Qed.

(** X6: [play] with an identifier that is not stored appends the new game at
    the end of the dictionary order; with an identifier that is stored it
    replaces that record where it stands, and the order of the identifiers
    is unchanged. *)
Theorem play_order (uuid4 : string) (P : Z) (st : State) :
  let game_id := substring 0 8 uuid4 in
  let new_game := {| player1 := P; player2 := None;
                     player1_move := None; player2_move := None;
                     status := waiting |} in
  (dict_get game_id (active_games st) = None →
     active_games (state (play uuid4 P st))
     = (active_games st ++ [(game_id, new_game)])%list)
  ∧ (is_Some (dict_get game_id (active_games st)) →
       dict_keys (active_games (state (play uuid4 P st)))
       = dict_keys (active_games st)).
Proof.
  cbv zeta. split.
  - intros Habs. simpl. by apply dict_set_absent.
  - intros Hpres. simpl. rewrite dict_keys_set. rewrite decide_True; [done|].
    destruct (decide (substring 0 8 uuid4 ∈ dict_keys (active_games st)))
      as [|Hnot]; [done|].
    apply dict_get_None_keys in Hnot. rewrite Hnot in Hpres.
    by destruct Hpres.
Qed.

(** ** What a move can and cannot touch *)

Lemma clean_up_other game_id game st other :
  game_id ≠ other →
  dict_get other (active_games (clean_up game_id game st).1)
  = dict_get other (active_games st).
Proof.
  intros Hne. unfold clean_up.
  destruct (dict_del game_id (active_games st)) as [d|] eqn:Hd; simpl; [|done].
  destruct (user_games st !! player1 game); simpl;
    by apply (dict_get_del_ne _ _ _ _ Hd).
Qed.

Lemma clean_up_removed game_id game st :
  dict_wf (active_games st) →
  is_Some (dict_get game_id (active_games st)) →
  dict_get game_id (active_games (clean_up game_id game st).1) = None.
Proof.
  intros Hwf Hsome. unfold clean_up.
  destruct (dict_del_is_Some _ _ Hsome) as [d Hd]. rewrite Hd. simpl.
  destruct (user_games st !! player1 game); simpl;
    by apply (dict_get_del_eq _ _ _ Hwf Hd).
Qed.

Lemma clean_up_raised game_id game st :
  is_Some (dict_get game_id (active_games st)) →
  (clean_up game_id game st).2 = Some KeyError
  ↔ user_games st !! player1 game = None.
Proof.
  intros Hsome. unfold clean_up.
  destruct (dict_del_is_Some _ _ Hsome) as [d ->]. simpl.
  by destruct (user_games st !! player1 game).
Qed.

Lemma clean_up_users_kept game_id game st :
  (clean_up game_id game st).2 = Some KeyError →
  user_games (clean_up game_id game st).1 = user_games st.
Proof.
  unfold clean_up.
  destruct (dict_del game_id (active_games st)); simpl; [|done].
  by destruct (user_games st !! player1 game).
Qed.

Lemma clean_up_users_other game_id game st user_id :
  user_id ≠ player1 game → player2 game ≠ Some user_id →
  user_games (clean_up game_id game st).1 !! user_id
  = user_games st !! user_id.
Proof.
  intros Hp1 Hp2. unfold clean_up.
  destruct (dict_del game_id (active_games st)); simpl; [|done].
  destruct (user_games st !! player1 game); simpl; [|done].
  destruct (player2 game) as [p2|]; [case_decide|];
    rewrite ?lookup_delete_ne by congruence; done.
Qed.

(** The state and the exception [make_move] ends with when the sender's
    entry names a stored game. *)
Lemma make_move_in_game P a st game_id game :
  user_games st !! P = Some game_id →
  dict_get game_id (active_games st) = Some game →
  let game' := set_move P a game in
  let st1 := {| active_games := dict_set game_id game' (active_games st);
                user_games := user_games st |} in
  (opponent_move P game = None
   ∧ state (make_move P a st) = st1 ∧ raised (make_move P a st) = None)
  ∨ (is_Some (opponent_move P game)
     ∧ state (make_move P a st) = (clean_up game_id game' st1).1
     ∧ raised (make_move P a st) = (clean_up game_id game' st1).2).
Proof.
  intros Hu Hg. cbv zeta. unfold make_move. rewrite Hu, Hg.
  unfold opponent_move.
  destruct (decide (player1 game = P)) as [Hp|Hp].
  - assert (player1_move (set_move P a game) = Some a
            ∧ player2_move (set_move P a game) = player2_move game)
      as [-> ->] by (unfold set_move; by rewrite decide_True).
    destruct (player2_move game); [right | left; by split_and!].
    split; [by eexists|]. by destruct (clean_up _ _ _).
  - assert (player1_move (set_move P a game) = player1_move game
            ∧ player2_move (set_move P a game) = Some a)
      as [-> ->] by (unfold set_move; by rewrite decide_False).
    destruct (player1_move game); [right | left; by split_and!].
    split; [by eexists|]. by destruct (clean_up _ _ _).
Qed.

(** X7: a move changes no stored game other than the one the sender's session
    entry names: every other identifier maps to what it mapped to before,
    whatever the move did. *)
Theorem make_move_other_games (P : Z) (a : Move) (st : State)
    (other : string) :
  user_games st !! P ≠ Some other →
  dict_get other (active_games (state (make_move P a st)))
  = dict_get other (active_games st).
Proof.
  intros Hother.
  destruct (user_games st !! P) as [k|] eqn:Hu;
    [|by unfold make_move; rewrite Hu].
  assert (k ≠ other) as Hne by congruence.
  destruct (dict_get k (active_games st)) as [g|] eqn:Hg;
    [|by unfold make_move; rewrite Hu, Hg].
  destruct (make_move_in_game P a st k g Hu Hg) as [(_ & -> & _)|(_ & -> & _)].
  - simpl. by apply dict_get_set_ne.
  - rewrite clean_up_other by done. simpl. by apply dict_get_set_ne.
Qed.

(** X8: a move never changes who plays a stored game or its status: every
    game stored afterwards was stored before under the same identifier
    with the same two players and the same status. *)
Theorem make_move_keeps_players (P : Z) (a : Move) (st : State)
    (game_id : string) (game' : Game) :
  dict_wf (active_games st) →
  dict_get game_id (active_games (state (make_move P a st))) = Some game' →
  ∃ game,
    dict_get game_id (active_games st) = Some game
    ∧ player1 game' = player1 game
    ∧ player2 game' = player2 game
    ∧ status game' = status game.
Proof.
  intros Hwf Hg'.
  destruct (make_move_get _ _ _ _ _ Hwf Hg') as (g & Hg & [->|[-> _]]).
  - by exists g.
  - exists g. by destruct (set_move_players P a g) as (-> & -> & ->).
Qed.

(** X9: a move only ever deletes session entries: an entry found afterwards
    was there before with the same value, and the entry of a user who is
    neither player of the sender's game is left as it was. *)
Theorem make_move_sessions (P : Z) (a : Move) (st : State) :
  (∀ user_id session,
     user_games (state (make_move P a st)) !! user_id = Some session →
     user_games st !! user_id = Some session)
  ∧ (∀ user_id game_id game,
       user_games st !! P = Some game_id →
       dict_get game_id (active_games st) = Some game →
       user_id ≠ player1 game → player2 game ≠ Some user_id →
       user_games (state (make_move P a st)) !! user_id
       = user_games st !! user_id).
Proof.
  split; [intros u s; apply make_move_users|].
  intros u k g Hu Hg Hp1 Hp2.
  destruct (set_move_players P a g) as (Hq1 & Hq2 & _).
  destruct (make_move_in_game P a st k g Hu Hg) as [(_ & -> & _)|(_ & -> & _)];
    [done|].
  rewrite clean_up_users_other; [done | by rewrite Hq1 | by rewrite Hq2].
Qed.

Lemma make_move_raised_inv P a st :
  raised (make_move P a st) = Some KeyError →
  ∃ game_id game b,
    user_games st !! P = Some game_id
    ∧ dict_get game_id (active_games st) = Some game
    ∧ opponent_move P game = Some b
    ∧ user_games st !! player1 game = None.
Proof.
  intros Hr.
  destruct (user_games st !! P) as [k|] eqn:Hu;
    [|by unfold make_move in Hr; rewrite Hu in Hr].
  destruct (dict_get k (active_games st)) as [g|] eqn:Hg;
    [|by unfold make_move in Hr; rewrite Hu, Hg in Hr].
  destruct (set_move_players P a g) as (Hq1 & _ & _).
  destruct (make_move_in_game P a st k g Hu Hg)
    as [(_ & _ & Hnone)|([b Hb] & _ & Hexn)]; [congruence|].
  rewrite Hexn in Hr. apply clean_up_raised in Hr.
  - exists k, g, b. split_and!; try done. by rewrite <- Hq1.
  - simpl. rewrite dict_get_set_eq. by eexists.
Qed.

(** X10: [make_move] raises in one situation only: the move fills the second
    of the two slots of the sender's game, and the first player of that
    game has no session entry.  In particular a move of the first player
    never raises. *)
Theorem make_move_raises_iff (P : Z) (a : Move) (st : State) :
  raised (make_move P a st) = Some KeyError
  ↔ ∃ game_id game b,
      user_games st !! P = Some game_id
      ∧ dict_get game_id (active_games st) = Some game
      ∧ opponent_move P game = Some b
      ∧ user_games st !! player1 game = None.
Proof.
  split; [apply make_move_raised_inv|].
  intros (k & g & b & Hu & Hg & Hb & Hnone).
  destruct (set_move_players P a g) as (Hq1 & _ & _).
  destruct (make_move_in_game P a st k g Hu Hg)
    as [(Hopp & _ & _)|(_ & _ & ->)]; [congruence|].
  apply clean_up_raised.
  - simpl. rewrite dict_get_set_eq. by eexists.
  - simpl. by rewrite Hq1.
Qed.

(** X11: after [make_move] has raised, the game is deleted and [user_games] is
    as before, so the sender's entry names a game that is not stored:
    every further move of the sender is answered with the game-not-found
    reply and changes nothing. *)
Theorem make_move_after_raise (P : Z) (a : Move) (st : State) :
  dict_wf (active_games st) →
  raised (make_move P a st) = Some KeyError →
  let st' := state (make_move P a st) in
  user_games st' = user_games st
  ∧ (∃ game_id,
       user_games st' !! P = Some game_id
       ∧ is_Some (dict_get game_id (active_games st))
       ∧ dict_get game_id (active_games st') = None)
  ∧ ∀ a', make_move P a' st'
          = {| state := st'; replies := [ReplyGameNotFound]; raised := None |}.
Proof.
  intros Hwf Hr. cbv zeta.
  destruct (make_move_raised_inv _ _ _ Hr) as (k & g & b & Hu & Hg & Hb & _).
  destruct (make_move_in_game P a st k g Hu Hg)
    as [(Hopp & _ & _)|(_ & Hst & Hexn)]; [congruence|].
  rewrite Hexn in Hr.
  assert (user_games (state (make_move P a st)) = user_games st) as Husers.
  { rewrite Hst. by rewrite (clean_up_users_kept _ _ _ Hr). }
  assert (dict_get k (active_games (state (make_move P a st))) = None) as Hgone.
  { rewrite Hst. apply clean_up_removed; simpl.
    - by apply dict_wf_set.
    - rewrite dict_get_set_eq. by eexists. }
  split_and!; [done | |].
  - exists k. rewrite Husers. split_and!; [done | by eexists | done].
  - intros a'. unfold make_move at 1. by rewrite Husers, Hu, Hgone.
Qed.

(** ** Finished games are not kept *)

Definition one_slot_empty (game : Game) : Prop :=
  player1_move game = None ∨ player2_move game = None.

Lemma handle_one_slot_empty P c st :
  dict_wf (active_games st) →
  (∀ k g, dict_get k (active_games st) = Some g → one_slot_empty g) →
  ∀ k g, dict_get k (active_games (state (handle P c st))) = Some g →
         one_slot_empty g.
Proof.
  intros Hwf Hall. destruct c as [uuid4| |a].
  - intros k g. simpl.
    destruct (decide (substring 0 8 uuid4 = k)) as [<-|Hne].
    + rewrite dict_get_set_eq. intros [= <-]. by left.
    + rewrite dict_get_set_ne by done. apply Hall.
  - simpl. destruct (join_cases P st) as [->|[Hj| ->]]; [done| |done].
    destruct (join_joined _ _ Hj) as (k & g & Hk & Hg & ->).
    intros k' g'. simpl. destruct (decide (k = k')) as [<-|Hne].
    + rewrite dict_get_set_eq. intros [= <-]. apply (Hall k g Hg).
    + rewrite dict_get_set_ne by done. apply Hall.
  - rewrite handle_move. intros k g' Hg'.
    destruct (make_move_get _ _ _ _ _ Hwf Hg') as (g & Hg & [->|[Heq Hu]]);
      [by eapply Hall|].
    destruct (make_move_in_game P a st k g Hu Hg)
      as [(Hopp & _ & _)|(_ & Hst & _)].
    + subst g'. unfold opponent_move in Hopp. unfold one_slot_empty, set_move.
      destruct (decide (player1 g = P)); simpl; auto.
    + rewrite Hst in Hg'.
      rewrite clean_up_removed in Hg'; [done | by apply dict_wf_set |].
      simpl. rewrite dict_get_set_eq. by eexists.
Qed.

(** X12: in every reachable state each stored game has at least one empty move
    slot: the move that fills the second slot deletes the game in the same
    handler, so no finished game is ever kept. *)
Theorem never_both_moves (st : State) (game_id : string) (game : Game) :
  reachable st →
  dict_get game_id (active_games st) = Some game →
  player1_move game = None ∨ player2_move game = None.
Proof.
  intros Hr. revert game_id game.
  induction Hr as [|st P c Hr IH]; [done|].
  apply handle_one_slot_empty; [|exact IH].
  by destruct (reachable_table_ok st Hr).
Qed.

(** ** Whose slot a move is written to *)

(** X13: when every [play] draws a fresh identifier, a user whose session entry
    names a stored game is one of its two players, so the move goes to the
    sender's own slot: to the first slot for the creator, and to the
    second slot only for the user who joined. *)
Theorem move_goes_to_own_slot (P : Z) (a : Move) (st : State)
    (game_id : string) (game : Game) :
  reachable_fresh st →
  user_games st !! P = Some game_id →
  dict_get game_id (active_games st) = Some game →
  (player1 game = P
   ∧ player1_move (set_move P a game) = Some a
   ∧ player2_move (set_move P a game) = player2_move game)
  ∨ (player1 game ≠ P ∧ player2 game = Some P
     ∧ player2_move (set_move P a game) = Some a
     ∧ player1_move (set_move P a game) = player1_move game).
Proof.
  intros Hr Hu Hg. destruct (reachable_fresh_ok st Hr) as [Hses _].
  unfold set_move. destruct (decide (player1 game = P)) as [Hp|Hp].
  - left. by split_and!.
  - right. destruct (Hses P game_id game Hu Hg) as [?|Hp2]; [done|].
    by split_and!.
Qed.

(** ** A whole game, from [play] to the result *)

Lemma dict_get_app_last {V} (k : string) (v : V) d :
  dict_get k d = None → dict_get k (d ++ [(k, v)]) = Some v.
Proof.
  induction d as [|[k' v'] d IH]; simpl; [by rewrite decide_True|].
  destruct (decide (k' = k)); [done | apply IH].
Qed.

Lemma dict_set_app_last {V} (k : string) (v v' : V) d :
  dict_get k d = None →
  dict_set k v' (d ++ [(k, v)]) = (d ++ [(k, v')])%list.
Proof.
  induction d as [|[k0 v0] d IH]; simpl; [by rewrite decide_True|].
  destruct (decide (k0 = k)); [done|]. intros H. by rewrite IH.
Qed.

Lemma dict_del_app_last {V} (k : string) (v : V) d :
  dict_get k d = None → dict_del k (d ++ [(k, v)]) = Some d.
Proof.
  induction d as [|[k0 v0] d IH]; simpl; [by rewrite decide_True|].
  destruct (decide (k0 = k)); [done|]. intros H. by rewrite IH.
Qed.

(** The outcome of the move that fills the second slot when the first
    player still has a session entry. *)
Lemma make_move_resolved P a b st game_id game games session :
  user_games st !! P = Some game_id →
  dict_get game_id (active_games st) = Some game →
  opponent_move P game = Some b →
  user_games st !! player1 game = Some session →
  dict_del game_id (dict_set game_id (set_move P a game) (active_games st))
  = Some games →
  make_move P a st
  = {| state :=
         {| active_games := games;
            user_games :=
              drop_players (player1 game) (player2 game) (user_games st) |};
       replies :=
         [ReplyChose a;
          if decide (player1 game = P) then ReplyResult a b (resolve a b)
          else ReplyResult b a (resolve b a)];
       raised := None |}.
Proof.
  intros Hu Hg Hopp Hs1 Hdel. unfold make_move. rewrite Hu, Hg. cbv zeta.
  destruct (set_move_players P a game) as (Hp1 & Hp2 & _).
  assert (player1_move (set_move P a game)
          = (if decide (player1 game = P) then Some a else Some b)
          ∧ player2_move (set_move P a game)
            = (if decide (player1 game = P) then Some b else Some a))
    as [Hm1 Hm2].
  { unfold opponent_move in Hopp. unfold set_move.
    destruct (decide (player1 game = P)); simpl; by rewrite Hopp. }
  set (g := set_move P a game) in *.
  assert (user_games st !! player1 g = Some session) as Hs1'
    by by rewrite Hp1.
  pose proof (clean_up_first_player_present game_id g
                {| active_games := dict_set game_id g (active_games st);
                   user_games := user_games st |}
                games session Hdel Hs1') as Hclean.
  simpl in Hclean. rewrite Hp1, Hp2 in Hclean. rewrite Hm1, Hm2.
  destruct (decide (player1 game = P)); by rewrite Hclean.
Qed.

Section full_game.
Variables (P1 P2 : Z) (a b : Move) (uuid4 : string) (st : State).
Let game_id := substring 0 8 uuid4.
Hypothesis players_differ : P1 ≠ P2.
Hypothesis id_not_empty : game_id ≠ "".
Hypothesis id_not_stored : dict_get game_id (active_games st) = None.
Hypothesis none_available :
  ∀ k g, (k, g) ∈ active_games st → ¬ eligible P2 g.

(** The game of [P1] and [P2] with the given moves and status. *)
Let the_game (m1 m2 : option Move) (p2 : option Z) (s : Status) : Game :=
  {| player1 := P1; player2 := p2;
     player1_move := m1; player2_move := m2; status := s |}.

Let with_game (game : Game) (users : gmap Z string) : State :=
  {| active_games := (active_games st ++ [(game_id, game)])%list;
     user_games := users |}.

Let both_in : gmap Z string :=
  <[P2 := game_id]> (<[P1 := game_id]> (user_games st)).

Lemma full_game_play :
  state (play uuid4 P1 st)
  = with_game (the_game None None None waiting)
      (<[P1 := game_id]> (user_games st)).
Proof.
  unfold play, with_game, the_game. simpl. f_equal.
  by apply dict_set_absent.
Qed.

Lemma full_game_join m1 :
  join P2 (with_game (the_game m1 None None waiting)
             (<[P1 := game_id]> (user_games st)))
  = {| state := with_game (the_game m1 None (Some P2) active) both_in;
       replies := [ReplyJoined]; raised := None |}.
Proof.
  unfold join, with_game. simpl.
  rewrite (find_available_app_skip _ _ _ none_available).
  rewrite find_available_here by (split; [done | exact players_differ]).
  simpl. rewrite (bool_decide_eq_false_2 _ id_not_empty). simpl.
  rewrite dict_get_app_last by done. simpl.
  by rewrite dict_set_app_last.
Qed.

Lemma full_game_first_move_P1 p2 s users :
  users !! P1 = Some game_id →
  make_move P1 a (with_game (the_game None None p2 s) users)
  = {| state := with_game (the_game (Some a) None p2 s) users;
       replies := [ReplyChose a; ReplyWaiting]; raised := None |}.
Proof.
  intros Hu.
  rewrite (make_move_recorded P1 a _ game_id (the_game None None p2 s));
    [| done | by apply dict_get_app_last
     | by unfold opponent_move; simpl; rewrite decide_True].
  unfold with_game, set_move. simpl. rewrite decide_True by done.
  by rewrite dict_set_app_last.
Qed.

Lemma full_game_first_move_P2 :
  make_move P2 b (with_game (the_game None None (Some P2) active) both_in)
  = {| state := with_game (the_game None (Some b) (Some P2) active) both_in;
       replies := [ReplyChose b; ReplyWaiting]; raised := None |}.
Proof.
  rewrite (make_move_recorded P2 b _ game_id
             (the_game None None (Some P2) active));
    [| apply lookup_insert_eq | by apply dict_get_app_last
     | by unfold opponent_move; simpl; rewrite decide_False].
  unfold with_game, set_move. simpl. rewrite decide_False by done.
  by rewrite dict_set_app_last.
Qed.

Lemma full_game_users_after :
  drop_players P1 (Some P2) both_in = delete P2 (delete P1 (user_games st)).
Proof.
  unfold drop_players, both_in. rewrite decide_True.
  - apply map_eq. intros i.
    destruct (decide (P2 = i)) as [<-|Hi2]; [by rewrite !lookup_delete_eq|].
    rewrite !(lookup_delete_ne _ P2) by done.
    destruct (decide (P1 = i)) as [<-|Hi1]; [by rewrite !lookup_delete_eq|].
    rewrite !(lookup_delete_ne _ P1) by done.
    by rewrite !lookup_insert_ne.
  - exists game_id. rewrite lookup_delete_ne by done. apply lookup_insert_eq.
Qed.

Lemma full_game_last_move_P2 :
  make_move P2 b (with_game (the_game (Some a) None (Some P2) active) both_in)
  = {| state := {| active_games := active_games st;
                   user_games := delete P2 (delete P1 (user_games st)) |};
       replies := [ReplyChose b; ReplyResult a b (resolve a b)];
       raised := None |}.
Proof.
  rewrite (make_move_resolved P2 b a _ game_id
             (the_game (Some a) None (Some P2) active)
             (active_games st) game_id).
  - pose proof full_game_users_after as Hd. unfold drop_players in Hd.
    unfold the_game, with_game. simpl.
    rewrite (decide_False (P := P1 = P2)) by done. by rewrite Hd.
  - apply lookup_insert_eq.
  - by apply dict_get_app_last.
  - unfold opponent_move, the_game. simpl. by rewrite decide_False.
  - unfold the_game, with_game, both_in. simpl.
    rewrite lookup_insert_ne by done. apply lookup_insert_eq.
  - unfold with_game. simpl. rewrite dict_set_app_last by done.
    by apply dict_del_app_last.
Qed.

Lemma full_game_last_move_P1 :
  make_move P1 a (with_game (the_game None (Some b) (Some P2) active) both_in)
  = {| state := {| active_games := active_games st;
                   user_games := delete P2 (delete P1 (user_games st)) |};
       replies := [ReplyChose a; ReplyResult a b (resolve a b)];
       raised := None |}.
Proof.
  assert (both_in !! P1 = Some game_id) as Hu.
  { unfold both_in. rewrite lookup_insert_ne by done. apply lookup_insert_eq. }
  rewrite (make_move_resolved P1 a b _ game_id
             (the_game None (Some b) (Some P2) active)
             (active_games st) game_id).
  - pose proof full_game_users_after as Hd. unfold drop_players in Hd.
    unfold the_game, with_game. simpl.
    rewrite (decide_True (P := P1 = P1)) by done. by rewrite Hd.
  - exact Hu.
  - by apply dict_get_app_last.
  - unfold opponent_move, the_game. simpl. by rewrite decide_True.
  - exact Hu.
  - unfold with_game. simpl. rewrite dict_set_app_last by done.
    by apply dict_del_app_last.
Qed.

(** X14: a whole game returns the dictionaries to where they were.  Let [P1]
    create a game under an identifier that is not stored and not empty,
    in a state that holds no game [P2] could join.  Then [join] by [P2]
    enters that game, and once both have moved - in either order, or with
    [P1] moving before [P2] joins - the second move is answered with the
    result [resolve a b] of the move [a] of [P1] and the move [b] of [P2],
    nothing is raised, [active_games] is as it was before [play], and
    [user_games] is as before without the entries of [P1] and [P2]. *)
Theorem full_game_round_trip :
  let s1 := state (play uuid4 P1 st) in
  let s2 := state (join P2 s1) in
  let final := {| active_games := active_games st;
                  user_games := delete P2 (delete P1 (user_games st)) |} in
  replies (join P2 s1) = [ReplyJoined]
  ∧ make_move P2 b (state (make_move P1 a s2))
    = {| state := final;
         replies := [ReplyChose b; ReplyResult a b (resolve a b)];
         raised := None |}
  ∧ make_move P1 a (state (make_move P2 b s2))
    = {| state := final;
         replies := [ReplyChose a; ReplyResult a b (resolve a b)];
         raised := None |}
  ∧ make_move P2 b (state (join P2 (state (make_move P1 a s1))))
    = {| state := final;
         replies := [ReplyChose b; ReplyResult a b (resolve a b)];
         raised := None |}.
Proof.
  cbv zeta. rewrite full_game_play. split_and!.
  - by rewrite full_game_join.
  - rewrite full_game_join. simpl.
    rewrite full_game_first_move_P1; simpl.
    + apply full_game_last_move_P2.
    + unfold both_in. rewrite lookup_insert_ne by done. apply lookup_insert_eq.
  - rewrite full_game_join. simpl.
    rewrite full_game_first_move_P2. simpl. apply full_game_last_move_P1.
  - rewrite full_game_first_move_P1 by apply lookup_insert_eq. simpl.
    rewrite full_game_join. simpl. apply full_game_last_move_P2.
Qed.
End full_game.

(** ** The further properties at concrete runs *)

Lemma one_active_fresh : reachable_fresh one_active.
Proof.
  apply reachable_fresh_run; [constructor|].
  apply (bool_decide_unpack _). vm_compute. exact I.
Defined.

Lemma join_succeeds_witness :
  replies (join 202 one_waiting) = [ReplyJoined]
  ∧ raised (join 202 one_waiting) = None.
Proof.
  assert (active_games one_waiting
          = [("3f2a9c1e",
              {| player1 := 101; player2 := None;
                 player1_move := None; player2_move := None;
                 status := waiting |})]) as Hgames by (vm_compute; reflexivity).
  apply join_succeeds.
  - eexists _, _. rewrite Hgames. split; [apply list_elem_of_here|].
    split; [reflexivity | done].
  - rewrite Hgames. intros k g Hin. apply list_elem_of_singleton in Hin.
    injection Hin as -> ->. done.
Defined.

Lemma make_move_other_games_witness :
  user_games two_waiting !! 101 ≠ Some "b81d04c7"
  ∧ dict_get "b81d04c7" (active_games (state (make_move 101 Rock two_waiting)))
    = dict_get "b81d04c7" (active_games two_waiting).
Proof.
  assert (user_games two_waiting !! 101 ≠ Some "b81d04c7") as Hu
    by (vm_compute; congruence).
  split; [exact Hu|]. exact (make_move_other_games 101 Rock two_waiting _ Hu).
Defined.

Lemma one_active_wf : dict_wf (active_games one_active).
Proof.
  unfold dict_wf, dict_keys. apply (bool_decide_unpack _). vm_compute. exact I.
Defined.

Lemma make_move_keeps_players_witness :
  ∃ game,
    dict_get "3f2a9c1e" (active_games one_active) = Some game
    ∧ 101 = player1 game ∧ Some 202 = player2 game ∧ active = status game.
Proof.
  assert (dict_get "3f2a9c1e"
            (active_games (state (make_move 101 Rock one_active)))
          = Some {| player1 := 101; player2 := Some 202;
                    player1_move := Some Rock; player2_move := None;
                    status := active |}) as Hg by (vm_compute; reflexivity).
  exact (make_move_keeps_players 101 Rock one_active _ _ one_active_wf Hg).
Defined.

Lemma make_move_after_raise_witness :
  raised (make_move 202 Scissors (run first_player_left initial_state))
  = Some KeyError
  ∧ ∀ a',
      make_move 202 a'
        (state (make_move 202 Scissors (run first_player_left initial_state)))
      = {| state :=
             state (make_move 202 Scissors
                      (run first_player_left initial_state));
           replies := [ReplyGameNotFound]; raised := None |}.
Proof.
  assert (dict_wf (active_games (run first_player_left initial_state))) as Hwf.
  { unfold dict_wf, dict_keys. apply (bool_decide_unpack _).
    vm_compute. exact I. }
  assert (raised (make_move 202 Scissors (run first_player_left initial_state))
          = Some KeyError) as Hr by (vm_compute; reflexivity).
  split; [exact Hr|].
  pose proof (make_move_after_raise 202 Scissors _ Hwf Hr) as Hw.
  cbv zeta in Hw. exact (proj2 (proj2 Hw)).
Defined.

Lemma never_both_moves_witness :
  reachable one_moved
  ∧ ∃ game,
      dict_get "3f2a9c1e" (active_games one_moved) = Some game
      ∧ (player1_move game = None ∨ player2_move game = None).
Proof.
  assert (reachable one_moved) as Hr by (apply reachable_run; constructor).
  assert (dict_get "3f2a9c1e" (active_games one_moved)
          = Some {| player1 := 101; player2 := Some 202;
                    player1_move := Some Rock; player2_move := None;
                    status := active |}) as Hg by (vm_compute; reflexivity).
  split; [exact Hr|]. eexists. split; [exact Hg|].
  exact (never_both_moves one_moved _ _ Hr Hg).
Defined.

Lemma move_goes_to_own_slot_witness :
  user_games one_active !! 202 = Some "3f2a9c1e"
  ∧ ∃ game,
      dict_get "3f2a9c1e" (active_games one_active) = Some game
      ∧ ((player1 game = 202
          ∧ player1_move (set_move 202 Paper game) = Some Paper
          ∧ player2_move (set_move 202 Paper game) = player2_move game)
         ∨ (player1 game ≠ 202 ∧ player2 game = Some 202
            ∧ player2_move (set_move 202 Paper game) = Some Paper
            ∧ player1_move (set_move 202 Paper game) = player1_move game)).
Proof.
  assert (user_games one_active !! 202 = Some "3f2a9c1e") as Hu
    by (vm_compute; reflexivity).
  assert (dict_get "3f2a9c1e" (active_games one_active)
          = Some {| player1 := 101; player2 := Some 202;
                    player1_move := None; player2_move := None;
                    status := active |}) as Hg by (vm_compute; reflexivity).
  split; [exact Hu|]. eexists. split; [exact Hg|].
  exact (move_goes_to_own_slot 202 Paper one_active _ _ one_active_fresh Hu Hg).
Defined.

Lemma full_game_round_trip_witness :
  replies (join 202 (state (play uuid_a 101 initial_state))) = [ReplyJoined]
  ∧ make_move 202 Scissors
      (state (make_move 101 Rock
                (state (join 202 (state (play uuid_a 101 initial_state))))))
    = {| state := {| active_games := [];
                     user_games := delete 202 (delete 101 ∅) |};
         replies := [ReplyChose Scissors;
                     ReplyResult Rock Scissors (resolve Rock Scissors)];
         raised := None |}.
Proof.
  assert ((101 : Z) ≠ 202) as Hne by done.
  assert (substring 0 8 uuid_a ≠ "") as Hid by (vm_compute; congruence).
  assert (∀ k g, (k, g) ∈ active_games initial_state → ¬ eligible 202 g)
    as Hnone.
  { intros k g Hin. by apply elem_of_nil in Hin. }
  pose proof (full_game_round_trip 101 202 Rock Scissors uuid_a initial_state
                Hne Hid eq_refl Hnone) as Hw.
  cbv zeta in Hw. destruct Hw as (Hj & Hm & _). split; [exact Hj | exact Hm].
Defined.

(** ** More on the outcome table, the identifier and the seat taken *)

(** X15: the game is balanced: every move wins against exactly one move and
    loses against exactly one move. *)
Theorem resolve_balanced (a : Move) :
  (∃ b, resolve a b = Player1Wins
        ∧ ∀ b', resolve a b' = Player1Wins → b' = b)
  ∧ (∃ c, resolve a c = Player2Wins
          ∧ ∀ c', resolve a c' = Player2Wins → c' = c).
Proof.
  destruct a.
  - split; [exists Scissors | exists Paper];
      (split; [reflexivity | intros [] H; vm_compute in H; congruence]).
  - split; [exists Rock | exists Scissors];
      (split; [reflexivity | intros [] H; vm_compute in H; congruence]).
  - split; [exists Paper | exists Rock];
      (split; [reflexivity | intros [] H; vm_compute in H; congruence]).
Qed.

Lemma length_substring_0 (n : nat) (s : string) :
  String.length (substring 0 n s) = Nat.min n (String.length s).
Proof.
  revert s. induction n as [|n IH]; intros [|c s]; simpl; try done.
  by rewrite IH.
Qed.

(** X16: the identifier [play] announces and stores the game under is the
    first eight characters of the UUID text: it has eight characters
    whenever the text has at least eight, and it is the whole text when
    the text is shorter. *)
Theorem play_id_length (uuid4 : string) (P : Z) (st : State) :
  ∃ game_id,
    replies (play uuid4 P st) = [ReplyCreated game_id]
    ∧ user_games (state (play uuid4 P st)) !! P = Some game_id
    ∧ String.length game_id = Nat.min 8 (String.length uuid4)
    ∧ String.prefix game_id uuid4 = true.
Proof.
  exists (substring 0 8 uuid4). split_and!.
  - done.
  - simpl. apply lookup_insert_eq.
  - apply length_substring_0.
  - generalize 8%nat. intros n. revert uuid4.
    induction n as [|n IH]; intros [|c s]; simpl; try done.
    rewrite IH. by destruct (Ascii.ascii_dec c c).
Qed.

(** X17: two UUID texts that agree on their first eight characters name the
    same game.  When [Q] plays with the second text after [P] played with
    the first, the record of [P] is replaced by the waiting game of [Q]
    while the entry of [P] still names it; a move of [P] is then written
    to the second slot of the game of [Q], which is still waiting and has
    no second player. *)
Theorem play_collision (P Q : Z) (a : Move) (u1 u2 : string) (st : State) :
  P ≠ Q →
  substring 0 8 u1 = substring 0 8 u2 →
  let game_id := substring 0 8 u1 in
  let st' := state (play u2 Q (state (play u1 P st))) in
  user_games st' !! P = Some game_id
  ∧ dict_get game_id (active_games st')
    = Some {| player1 := Q; player2 := None;
              player1_move := None; player2_move := None;
              status := waiting |}
  ∧ replies (make_move P a st') = [ReplyChose a; ReplyWaiting]
  ∧ dict_get game_id (active_games (state (make_move P a st')))
    = Some {| player1 := Q; player2 := None;
              player1_move := None; player2_move := Some a;
              status := waiting |}.
Proof.
  intros Hne Hid. cbv zeta.
  set (k := substring 0 8 u1) in *.
  set (new_game := {| player1 := Q; player2 := None;
                      player1_move := None; player2_move := None;
                      status := waiting |}).
  assert (user_games (state (play u2 Q (state (play u1 P st)))) !! P = Some k)
    as Hu.
  { simpl. rewrite lookup_insert_ne by done. apply lookup_insert_eq. }
  assert (dict_get k (active_games (state (play u2 Q (state (play u1 P st)))))
          = Some new_game) as Hg.
  { simpl. rewrite <- Hid. apply dict_get_set_eq. }
  assert (opponent_move P new_game = None) as Hopp.
  { unfold opponent_move. simpl. by rewrite decide_False. }
  rewrite (make_move_recorded P a _ k new_game Hu Hg Hopp).
  split_and!; [done | done | done |].
  cbn [state active_games]. rewrite dict_get_set_eq.
  unfold set_move. simpl. by rewrite decide_False.
Qed.

(** X18: in a reachable state [join] only ever takes an empty seat: the game
    it enters [P] in had no second player, and the joined record differs
    from the stored one in nothing but the second player, now [P], and
    the status, now active - a move the creator made while waiting is
    kept. *)
Theorem join_takes_empty_seat (P : Z) (st : State) :
  reachable st →
  replies (join P st) = [ReplyJoined] →
  ∃ game_id game,
    dict_get game_id (active_games st) = Some game
    ∧ status game = waiting
    ∧ player2 game = None
    ∧ user_games (state (join P st)) !! P = Some game_id
    ∧ dict_get game_id (active_games (state (join P st)))
      = Some {| player1 := player1 game; player2 := Some P;
                player1_move := player1_move game;
                player2_move := player2_move game;
                status := active |}.
Proof.
  intros Hr Hj. destruct (reachable_table_ok st Hr) as [Hwf Hall].
  destruct (join_joined _ _ Hj) as (k & g & Hk & Hg & ->).
  destruct (find_available_get _ _ _ Hwf Hk) as (g' & Hg' & Hs & _).
  assert (g' = g) as -> by congruence.
  destruct (Hall k g Hg) as (Hw & _ & _).
  exists k, g. simpl.
  split_and!; [done | done | by apply Hw | apply lookup_insert_eq
              | apply dict_get_set_eq].
Qed.

Lemma play_collision_witness :
  user_games (state (play uuid_a 202 (state (play uuid_a 101 initial_state))))
  !! 101 = Some "3f2a9c1e"
  ∧ dict_get "3f2a9c1e"
      (active_games
         (state (make_move 101 Rock
                   (state (play uuid_a 202
                             (state (play uuid_a 101 initial_state)))))))
    = Some {| player1 := 202; player2 := None;
              player1_move := None; player2_move := Some Rock;
              status := waiting |}.
Proof.
  assert ((101 : Z) ≠ 202) as Hne by done.
  pose proof (play_collision 101 202 Rock uuid_a uuid_a initial_state
                Hne eq_refl) as Hw.
  cbv zeta in Hw. destruct Hw as (Hu & _ & _ & Hg).
  split; [exact Hu | exact Hg].
Defined.

Lemma join_takes_empty_seat_witness :
  reachable one_waiting
  ∧ ∃ game_id game,
      dict_get game_id (active_games one_waiting) = Some game
      ∧ status game = waiting
      ∧ player2 game = None
      ∧ user_games (state (join 202 one_waiting)) !! 202 = Some game_id
      ∧ dict_get game_id (active_games (state (join 202 one_waiting)))
        = Some {| player1 := player1 game; player2 := Some 202;
                  player1_move := player1_move game;
                  player2_move := player2_move game;
                  status := active |}.
Proof.
  assert (reachable one_waiting) as Hr by (apply reachable_run; constructor).
  assert (replies (join 202 one_waiting) = [ReplyJoined]) as Hj
    by (vm_compute; reflexivity).
  split; [exact Hr|]. exact (join_takes_empty_seat 202 one_waiting Hr Hj).
Defined.
